(** * gocaptcha: a shallow embedding of the raster composition pipeline

  The development follows the Go sources: [utils.go] (colour
  generators) and the two variants of the drawing API, which differ only
  in the random source they read.  Go's [int] is the 64-bit two's
  complement integer, [float64] is IEEE binary64 (Rocq's primitive
  floats), panics are an explicit outcome, and the pseudo-random source,
  the font files, the glyph rasteriser and the image encoders are
  explicit collaborators. *)

From Stdlib Require Import ZArith Floats Uint63 Lia.
From stdpp Require Import gmap strings list.

Open Scope Z_scope.

Set Default Proof Using "Type".

(** ** Machine integers

  Go's [int] on 64-bit targets: arithmetic wraps around silently,
  division truncates towards zero and panics on a zero divisor. *)
Module GoInt.

Definition min_int : Z := - 2 ^ 63.
Definition max_int : Z := 2 ^ 63 - 1.

Definition wrap (z : Z) : Z := (z + 2 ^ 63) mod 2 ^ 64 - 2 ^ 63.

Definition in_range (z : Z) : Prop := min_int <= z <= max_int.

Definition add (a b : Z) : Z := wrap (a + b).
Definition sub (a b : Z) : Z := wrap (a - b).
Definition mul (a b : Z) : Z := wrap (a * b).
Definition neg (a : Z) : Z := wrap (- a).
(** [a / b] and [a % b] for a divisor known to be non-zero. *)
Definition quot (a b : Z) : Z := wrap (Z.quot a b).
Definition rem (a b : Z) : Z := Z.rem a b.

End GoInt.

(** ** Floating point

  [float64] values that take part in trigonometry or division are
  primitive binary64 floats.  Conversions follow Go: [float64(n)] rounds
  to nearest even, [int(f)] truncates towards zero. *)
Module F64.

Definition of_int (z : Z) : float :=
  if z =? GoInt.min_int then (-0x1p63)%float
  else if z <? 0 then PrimFloat.opp (PrimFloat.of_uint63 (Uint63.of_Z (- z)))
  else PrimFloat.of_uint63 (Uint63.of_Z z).

(** [int(f)]: the value is truncated; outside the range of [int], and for
    NaN, Go leaves the result to the implementation and amd64 yields the
    smallest integer. *)
Definition to_int (f : float) : Z :=
  match Prim2SF f with
  | S754_zero _ => 0
  | S754_finite s m e =>
      let a := if 0 <=? e then Z.pos m * 2 ^ e else Z.pos m / 2 ^ (- e) in
      let v := if s then - a else a in
      if (GoInt.min_int <=? v) && (v <=? GoInt.max_int) then v else GoInt.min_int
  | _ => GoInt.min_int
  end.

(** [math.Pi] as a [float64]. *)
Definition Pi : float := 0x1.921fb54442d18p+1%float.

Definition neq (a b : float) : bool := negb (PrimFloat.eqb a b).

End F64.

(** In [drawBeeline] and [randDeepColor] every [float64] is obtained from
  integers by conversion, addition, subtraction, doubling, [math.Abs] and
  [math.Min]; such a value is an integer, and it is kept here as the
  integer it denotes.  What binary64 adds to integer arithmetic is the
  rounding of each result to 53 significant bits, nearest-even, which
  [rne] writes out.  (No intermediate result comes near [2^1024], so no
  infinity arises, and the sign of a zero is never observed.) *)
Module IntFloat.

Definition rne (z : Z) : Z :=
  let a := Z.abs z in
  let e := Z.log2 a - 52 in
  if e <=? 0 then z
  else
    let u := 2 ^ e in
    let q := a / u in
    let r := a mod u in
    let q' := if 2 * r <? u then q
              else if u <? 2 * r then q + 1
              else if Z.even q then q else q + 1 in
    Z.sgn z * (q' * u).

Definition of_int (z : Z) : Z := rne z.
Definition add (a b : Z) : Z := rne (a + b).
Definition sub (a b : Z) : Z := rne (a - b).
Definition mul (a b : Z) : Z := rne (a * b).
Definition abs (a : Z) : Z := Z.abs a.
Definition min (a b : Z) : Z := Z.min a b.
Definition opp (a : Z) : Z := - a.

End IntFloat.

(** ** Colours and the pixel buffer *)

(** [color.RGBA]: four 8-bit channels, alpha-premultiplied. *)
Record RGBA := mkRGBA { R : Z; G : Z; B : Z; A : Z }.

(** Conversion of an [int] to [uint8] keeps the low eight bits. *)
Definition uint8 (z : Z) : Z := z mod 256.

(** [color.NRGBAModel.Convert] on a [color.RGBA], the conversion that
    [image.NRGBA.Set] applies to the colour it is given: the 16-bit
    premultiplied channels are divided by alpha, opaque and transparent
    colours taking the two short paths. *)
Definition nrgbaModel (c : RGBA) : RGBA :=
  let w16 v := Z.lor v (Z.shiftl v 8) in
  let r := w16 (R c) in
  let g := w16 (G c) in
  let b := w16 (B c) in
  let a := w16 (A c) in
  if a =? 65535 then
    mkRGBA (uint8 (Z.shiftr r 8)) (uint8 (Z.shiftr g 8)) (uint8 (Z.shiftr b 8)) 255
  else if a =? 0 then mkRGBA 0 0 0 0
  else
    let r := (r * 65535) / a in
    let g := (g * 65535) / a in
    let b := (b * 65535) / a in
    mkRGBA (uint8 (Z.shiftr r 8)) (uint8 (Z.shiftr g 8)) (uint8 (Z.shiftr b 8))
           (uint8 (Z.shiftr a 8)).

(** [image.Rectangle], half-open on both axes. *)
Record Rectangle := mkRect { MinX : Z; MinY : Z; MaxX : Z; MaxY : Z }.

(** [image.Rect]: the corners are put in order. *)
Definition Rect (x0 y0 x1 y1 : Z) : Rectangle :=
  let '(x0, x1) := if x1 <? x0 then (x1, x0) else (x0, x1) in
  let '(y0, y1) := if y1 <? y0 then (y1, y0) else (y0, y1) in
  mkRect x0 y0 x1 y1.

(** [image.NRGBA]: the bounds and the pixels inside them, one colour per
    coordinate pair. *)
Record NRGBA := mkNRGBA { Bounds : Rectangle; Pix : gmap (Z * Z) RGBA }.

(** [Point{x, y}.In(p.Rect)]. *)
Definition inBounds (r : Rectangle) (x y : Z) : bool :=
  (MinX r <=? x) && (x <? MaxX r) && (MinY r <=? y) && (y <? MaxY r).

(** [Set] of [image.NRGBA]: a coordinate outside the bounds is ignored. *)
Definition NRGBA_Set (m : NRGBA) (x y : Z) (c : RGBA) : NRGBA :=
  if inBounds (Bounds m) x y
  then mkNRGBA (Bounds m) (<[(x, y) := nrgbaModel c]> (Pix m))
  else m.

(** [NRGBAAt] of [image.NRGBA]: the zero colour outside the bounds. *)
Definition NRGBA_At (m : NRGBA) (x y : Z) : RGBA :=
  if inBounds (Bounds m) x y
  then default (mkRGBA 0 0 0 0) (Pix m !! (x, y))
  else mkRGBA 0 0 0 0.

(** The coordinates of a rectangle, row by row. *)
Definition rectPoints (r : Rectangle) : list (Z * Z) :=
  y ← seqZ (MinY r) (MaxY r - MinY r);
  x ← seqZ (MinX r) (MaxX r - MinX r);
  [(x, y)].

(** [image.NewNRGBA] followed by [draw.Draw] of a uniform source with
    [draw.Src]: every pixel of the bounds holds the background. *)
Definition filledNRGBA (r : Rectangle) (bg : RGBA) : NRGBA :=
  mkNRGBA r (list_to_map ((fun p => (p, nrgbaModel bg)) <$> rectPoints r)).

(** Setting the same colour at each coordinate of a list, first to last. *)
Definition paint (c : RGBA) (pts : list (Z * Z)) (m : NRGBA) : NRGBA :=
  fold_left (fun m p => NRGBA_Set m (fst p) (snd p) c) pts m.

(** ** The canvas *)

Definition error := string.

Record CaptchaImage := mkCaptchaImage {
  nrgba : NRGBA;
  width : Z;
  height : Z;
  Complex : Z;
  Error : option error
}.

Record Point := mkPoint { X : Z; Y : Z }.

(** What [ReadFonts] reads of an [os.FileInfo]. *)
Record FileInfo := mkFileInfo { Name : string; IsDir : bool }.

Definition ImageFormat := Z.
Definition ImageFormatPng : ImageFormat := 0.
Definition ImageFormatJpeg : ImageFormat := 1.
Definition ImageFormatGif : ImageFormat := 2.

Definition CaptchaComplex := Z.
Definition CaptchaComplexLower : CaptchaComplex := 0.
Definition CaptchaComplexMedium : CaptchaComplex := 1.
Definition CaptchaComplexHigh : CaptchaComplex := 2.

Definition txtChars : string :=
  "ABCDEFGHIJKLMNOPQRSTUVWXYZabcdefghijklmnopqrstuvwxyz0123456789".

(** The receiver with its pixel buffer replaced: drawing mutates the buffer
    behind [captcha.nrgba] and leaves the other fields alone. *)
Definition withPixels (captcha : CaptchaImage) (m : NRGBA) : CaptchaImage :=
  mkCaptchaImage m (width captcha) (height captcha) (Complex captcha) (Error captcha).

(** [captcha.Error = err]. *)
Definition withError (captcha : CaptchaImage) (e : error) : CaptchaImage :=
  mkCaptchaImage (nrgba captcha) (width captcha) (height captcha) (Complex captcha) (Some e).

(** [New] (and [NewCaptchaImage], its older name). *)
Definition New (w h : Z) (bgColor : RGBA) : CaptchaImage :=
  mkCaptchaImage (filledNRGBA (Rect 0 0 w h) bgColor) w h 0 None.

Definition NewCaptchaImage (w h : Z) (bgColor : RGBA) : CaptchaImage :=
  New w h bgColor.

(** ** Effects

    A call either returns, panics (the process crashes with the runtime's
    message) or, for the two loops whose exit depends on floating-point
    stepping, exhausts the fuel it was given. *)
Inductive outcome (T : Type) : Type :=
| Ret (t : T)
| Panic (msg : string)
| OutOfFuel.

Arguments Ret {T} t.
Arguments Panic {T} msg.
Arguments OutOfFuel {T}.

(** The package-level variables.  [rand] is the stream of raw values the
    pseudo-random source is going to deliver: the shared source of
    [math/rand] in one variant, the package's [r] (and the sources seeded
    from the clock inside [DrawTextNoise] and [RandText]) in the other.
    [fontFamily] is the font registry and [dpi] the value of the flag. *)
Record Globals := mkGlobals {
  rand : list Z;
  fontFamily : list string;
  dpi : float
}.

Definition M (T : Type) : Type := Globals -> outcome (T * Globals).

Definition ret {T} (t : T) : M T := fun g => Ret (t, g).

Definition bind {T U} (m : M T) (k : T -> M U) : M U :=
  fun g =>
    match m g with
    | Ret (t, g') => k t g'
    | Panic msg => Panic msg
    | OutOfFuel => OutOfFuel
    end.

Definition panic {T} (msg : string) : M T := fun _ => Panic msg.

Definition lift {T} (o : outcome T) : M T :=
  fun g =>
    match o with
    | Ret t => Ret (t, g)
    | Panic msg => Panic msg
    | OutOfFuel => OutOfFuel
    end.

Declare Scope go_scope.
Delimit Scope go_scope with go.
Notation "x <- m ;; k" := (bind m (fun x => k))
  (at level 100, m at next level, right associativity) : go_scope.
Open Scope go_scope.

(** A [for] loop over the values of [xs] whose body updates [s]. *)
Fixpoint forM {T S} (xs : list T) (body : T -> S -> M S) (s : S) : M S :=
  match xs with
  | [] => ret s
  | x :: xs' => s' <- body x s ;; forM xs' body s'
  end.

(** [rand.Intn(n)]: panics unless [n > 0], else a value of [[0, n)]. *)
Definition Intn (n : Z) : M Z :=
  fun g =>
    if n <=? 0 then Panic "invalid argument to Intn"
    else
      match rand g with
      | [] => Ret (0, g)
      | d :: ds => Ret (d mod n, mkGlobals ds (fontFamily g) (dpi g))
      end.

(** Integer division by a divisor that is not a constant. *)
Definition go_div (a b : Z) : outcome Z :=
  if b =? 0 then Panic "runtime error: integer divide by zero"
  else Ret (GoInt.quot a b).

(** [SetFontFamily]. *)
Definition SetFontFamily (fontPath : list string) : M unit :=
  fun g => Ret (tt, mkGlobals (rand g) (fontFamily g ++ fontPath) (dpi g)).

(** ** Colour generators ([utils.go]) *)

(** [uint8(f)] for an integral [float64] [f]: the compiler converts to a
    32-bit integer and keeps the low byte (Go leaves the result open when
    [f] is outside [[0, 255]]; this is what amd64 computes). *)
Definition uint8_of_float (v : Z) : Z :=
  if (- 2 ^ 31 <=? v) && (v <? 2 ^ 31) then uint8 v else 0.

Definition randColor : M RGBA :=
  red <- Intn 255 ;;
  green <- Intn 255 ;;
  blue <- Intn 255 ;;
  let blue := if GoInt.add red green >? 400 then 0
              else GoInt.sub (GoInt.sub 400 green) red in
  let blue := if blue >? 255 then 255 else blue in
  ret (mkRGBA (uint8 red) (uint8 green) (uint8 blue) (uint8 255)).

(** The darkening of one channel: [math.Abs(math.Min(float64(ch)-increase, 255))]. *)
Definition deepChannel (ch increase : Z) : Z :=
  IntFloat.abs (IntFloat.min (IntFloat.sub (IntFloat.of_int ch) increase) 255).

Definition randDeepColor : M RGBA :=
  randColor <- randColor ;;
  k <- Intn 255 ;;
  let increase := IntFloat.of_int (GoInt.add 30 k) in
  let red := deepChannel (R randColor) increase in
  let green := deepChannel (G randColor) increase in
  let blue := deepChannel (B randColor) increase in
  ret (mkRGBA (uint8_of_float red) (uint8_of_float green) (uint8_of_float blue)
              (uint8 255)).

Definition RandLightColor : M RGBA :=
  red <- Intn 55 ;;
  green <- Intn 55 ;;
  blue <- Intn 55 ;;
  ret (mkRGBA (uint8 (GoInt.add red 200)) (uint8 (GoInt.add green 200))
              (uint8 (GoInt.add blue 200)) (uint8 255)).

(** [string(txtChars[i])] for an index inside the alphabet. *)
Definition charAt (s : string) (i : Z) : string :=
  match String.get (Z.to_nat i) s with
  | Some a => String a EmptyString
  | None => EmptyString
  end.

Definition RandText (num : Z) : M string :=
  let textNum := Z.of_nat (String.length txtChars) in
  forM (seqZ 0 num)
       (fun _ text => k <- Intn textNum ;; ret (text +:+ charAt txtChars k))
       EmptyString.

Definition ColorToRGB (colorVal : Z) : RGBA :=
  let red := Z.shiftr colorVal 16 in
  let green := Z.shiftr (Z.land colorVal 65280) 8 in
  let blue := Z.land colorVal 255 in
  mkRGBA (uint8 red) (uint8 green) (uint8 blue) (uint8 255).

(** What [randColor] makes of its first two draws. *)
Definition colorOf (red green : Z) : RGBA :=
  mkRGBA red green (if red + green >? 400 then 0 else Z.min (400 - green - red) 255) 255.

(** The colour a finished call has left at a coordinate. *)
Definition pixelOf {T} (o : outcome T) (canvas : T -> CaptchaImage) (x y : Z)
  : option RGBA :=
  match o with
  | Ret t => Some (NRGBA_At (nrgba (canvas t)) x y)
  | _ => None
  end.

(** The error a finished call has left on the canvas. *)
Definition errorOf {T} (o : outcome T) (canvas : T -> CaptchaImage)
  : option (option error) :=
  match o with
  | Ret t => Some (Error (canvas t))
  | _ => None
  end.

(** ** A concrete environment

    The collaborators below are the ones the examples are evaluated with:
    a machine without font files, a rasteriser that draws nothing, encoders
    that succeed, and ASCII text. *)

Definition noFile (path : string) : list Z * option error :=
  ([], Some ("open " +:+ path +:+ ": no such file or directory")).

Definition noFont (fontBytes : list Z) : unit * option error :=
  (tt, Some "freetype: invalid TrueType format").

(** Modelled from the spec: [Random(min, max)], whose source file is not
    among the sources at hand.  The spec has it draw uniformly from
    [[min, max]], with [min > max] a violated precondition; the callers
    use the result as a [float64]. *)
Definition specRandom (min max : Z) : M float :=
  if max <? min then panic "invalid range"
  else k <- Intn (max - min + 1) ;; ret (F64.of_int (min + k)).

(** A sine that is right at 0 and wherever it is multiplied by 0. *)
Definition flatSin (x : float) : float := 0%float.

(** The runes of an ASCII string: every byte is one. *)
Fixpoint asciiRunes (i : Z) (s : string) : list (Z * string) :=
  match s with
  | EmptyString => []
  | String a s' => (i, String a EmptyString) :: asciiRunes (i + 1) s'
  end.

Definition blankDrawString {C : Type} (c : C) (m : NRGBA) (text : string) (pt : Z * Z)
  : NRGBA * option error := (m, None).

Definition okEncode (m : NRGBA) : list Z * option error := ([137; 80; 78; 71], None).
Definition okEncodeWith (m : NRGBA) (option_ : Z) : list Z * option error :=
  ([255; 216], None).

(** A machine where every file can be read and parsed. *)
Definition anyFile (path : string) : list Z * option error := ([0; 1; 0; 0], None).
Definition anyFont (fontBytes : list Z) : unit * option error := (tt, None).

(** [strings.ToUpper] on ASCII text: the letters [a] to [z] are shifted,
    every other byte is kept. *)
Definition upperByte (a : Ascii.ascii) : Ascii.ascii :=
  let n := Ascii.nat_of_ascii a in
  if (97 <=? n)%nat && (n <=? 122)%nat then Ascii.ascii_of_nat (n - 32) else a.

Fixpoint asciiToUpper (s : string) : string :=
  match s with
  | EmptyString => EmptyString
  | String a s' => String (upperByte a) (asciiToUpper s')
  end.

(** Two directories: one with two font files among other entries, one
    without any; every other path cannot be listed. *)
Definition listing (dirPth : string) : list FileInfo * option error :=
  if String.eqb dirPth "fonts" then
    ([mkFileInfo "Comic.TTF" false; mkFileInfo "notes.txt" false;
      mkFileInfo "old.ttf" true; mkFileInfo "arial.ttf" false; mkFileInfo "ttf" false],
     None)
  else if String.eqb dirPth "docs" then
    ([mkFileInfo "readme.txt" false; mkFileInfo "backup.ttf" true], None)
  else ([], Some ("open " +:+ dirPth +:+ ": no such file or directory")).

Definition white : RGBA := mkRGBA 255 255 255 255.
Definition black : RGBA := mkRGBA 0 0 0 255.

(** A canvas on which an earlier text operation has failed. *)
Definition failedCanvas : CaptchaImage :=
  withError (New 8 4 white) "open a.ttf: no such file or directory".

(** ** Drawing operations

    What the package calls but does not define is a parameter: the
    helper [Random] (a [float64] drawn between two bounds, defined in a
    file of the package that is not part of these sources), [math.Sin],
    Go's iteration over the runes of a string, the file system, the font
    parser, the glyph rasteriser and the three encoders. *)
Section Drawing.

Variable Font : Type.
(** [&truetype.Font{}], the placeholder returned beside an error. *)
Variable emptyFont : Font.
(** [ioutil.ReadFile] and [freetype.ParseFont]. *)
Variable ReadFile : string -> list Z * option error.
Variable ParseFont : list Z -> Font * option error.
(** [Random(min, max)]. *)
Variable Random : Z -> Z -> M float.
(** [math.Sin]. *)
Variable Sin : float -> float.
(** [for i, s := range text]: byte offset and [string(s)] of every rune. *)
Variable rangeString : string -> list (Z * string).

(** The settings of a [freetype.Context]; its destination is the canvas's
    own pixel buffer, which [DrawString] receives and returns. *)
Record Context := mkContext {
  ctxDPI : float;
  ctxClip : Rectangle;
  ctxHinting : Z;
  ctxSrc : RGBA;
  ctxFontSize : float;
  ctxFont : option Font
}.

(** [c.DrawString(text, freetype.Pt(x, y))] on the destination. *)
Variable DrawString : Context -> NRGBA -> string -> Z * Z -> NRGBA * option error.

(** [png.Encode], [jpeg.Encode] with its quality and [gif.Encode] with its
    number of colours: the bytes written and the error returned. *)
Variable png_Encode : NRGBA -> list Z * option error.
Variable jpeg_Encode : NRGBA -> Z -> list Z * option error.
Variable gif_Encode : NRGBA -> Z -> list Z * option error.

(** [font.HintingFull]. *)
Definition HintingFull : Z := 2.

(** [freetype.NewContext()] after [SetDPI], [SetClip], [SetDst] and
    [SetHinting]: black source, size 12, no font yet. *)
Definition newContext (captcha : CaptchaImage) (g : Globals) : Context :=
  mkContext (dpi g) (Bounds (nrgba captcha)) HintingFull (mkRGBA 0 0 0 255)
            12%float None.

Definition getGlobals : M Globals := fun g => Ret (g, g).

(** [SaveImage] writes to [w] and returns the encoder's error; the canvas
    is handed back as the call leaves it. *)
Definition SaveImage (captcha : CaptchaImage) (w : list Z) (imageFormat : ImageFormat)
  : CaptchaImage * list Z * option error :=
  if imageFormat =? ImageFormatPng then
    let '(bytes, err) := png_Encode (nrgba captcha) in (captcha, w ++ bytes, err)
  else if imageFormat =? ImageFormatJpeg then
    let '(bytes, err) := jpeg_Encode (nrgba captcha) 100 in (captcha, w ++ bytes, err)
  else if imageFormat =? ImageFormatGif then
    let '(bytes, err) := gif_Encode (nrgba captcha) 256 in (captcha, w ++ bytes, err)
  else (captcha, w, Some "not supported image format").

(** One column of [DrawHollowLine]: the pixel at [(x, y)] and the run
    [y, y+1, ..., y+w] below it. *)
Definition hollowColumn (m : NRGBA) (x y w : Z) (lineColor : RGBA) : NRGBA :=
  let m := NRGBA_Set m x y lineColor in
  paint lineColor ((fun i => (x, GoInt.add y i)) <$> seqZ 0 (w + 1)) m.

(** [for ; x1 < x2; x1++] with [x1] a [float64]. *)
Fixpoint hollowLoop (fuel : nat) (captcha : CaptchaImage) (x1 x2 multiple : float)
    (w : Z) (lineColor : RGBA) (m : NRGBA) : outcome NRGBA :=
  match fuel with
  | O => OutOfFuel
  | S fuel' =>
      if (x1 <? x2)%float then
        let y := (Sin (x1 * F64.Pi * multiple / F64.of_int (width captcha))
                  * F64.of_int (GoInt.quot (height captcha) 3))%float in
        let y := if (multiple <? 0)%float
                 then (y + F64.of_int (GoInt.quot (height captcha) 2))%float
                 else y in
        let m := hollowColumn m (F64.to_int x1) (F64.to_int y) w lineColor in
        hollowLoop fuel' captcha (x1 + 1)%float x2 multiple w lineColor m
      else Ret m
  end.

Definition DrawHollowLine (fuel : nat) (captcha : CaptchaImage) : M CaptchaImage :=
  match Error captcha with
  | Some _ => ret captcha
  | None =>
      let first := GoInt.quot (width captcha) 20 in
      let end_ := GoInt.mul first 19 in
      let lineColor := mkRGBA 245 250 251 255 in
      a <- Intn first ;;
      let x1 := F64.of_int a in
      b <- Intn first ;;
      let x2 := F64.of_int (GoInt.add b end_) in
      k <- Intn 5 ;;
      let multiple := (F64.of_int (GoInt.add k 3) / F64.of_int 5)%float in
      let multiple := if GoInt.rem (F64.to_int (multiple * 10)%float) 3 =? 0
                      then (multiple * -1)%float else multiple in
      let w := GoInt.quot (height captcha) 20 in
      m <- lift (hollowLoop fuel captcha x1 x2 multiple w lineColor (nrgba captcha)) ;;
      ret (withPixels captcha m)
  end.

(** The values [DrawSineLine] draws before it plots. *)
Record SineParams := mkSineParams {
  sine_a : Z;
  sine_b : float;
  sine_f : float;
  sine_w : float;
  sine_px2 : Z;
  sine_c : RGBA
}.

Definition sineParams (captcha : CaptchaImage) : M SineParams :=
  a <- Intn (GoInt.quot (height captcha) 2) ;;
  b <- Random (GoInt.quot (GoInt.neg (height captcha)) 4) (GoInt.quot (height captcha) 4) ;;
  f <- Random (GoInt.quot (GoInt.neg (height captcha)) 4) (GoInt.quot (height captcha) 4) ;;
  t <- (if height captcha >? GoInt.quot (width captcha) 2
        then Random (GoInt.quot (width captcha) 2) (height captcha)
        else Random (height captcha) (GoInt.quot (width captcha) 2)) ;;
  let w := (2 * F64.Pi / t)%float in
  p <- Random (F64.to_int (F64.of_int (width captcha) * 0x1.999999999999ap-1)%float) (width captcha) ;;
  let px2 := F64.to_int p in
  cr <- Intn 150 ;;
  cg <- Intn 150 ;;
  cb <- Intn 150 ;;
  ret (mkSineParams a b f w px2 (mkRGBA (uint8 cr) (uint8 cg) (uint8 cb) (uint8 255))).

(** The row of the curve above column [px]: [int(py)]. *)
Definition sineRow (captcha : CaptchaImage) (p : SineParams) (px : Z) : Z :=
  F64.to_int (F64.of_int (sine_a p) * Sin (sine_w p * F64.of_int px + sine_f p)
              + sine_b p
              + F64.of_int (width captcha) / F64.of_int 5)%float.

(** [i := height/5; for i > 0 { Set(px+i, int(py), c); i-- }]. *)
Definition sineRun (captcha : CaptchaImage) (p : SineParams) (px : Z) : list (Z * Z) :=
  let n := GoInt.quot (height captcha) 5 in
  (fun i => (GoInt.add px i, sineRow captcha p px)) <$> reverse (seqZ 1 n).

(** [for px = px1; px < px2; px++]. *)
Definition sinePlot (captcha : CaptchaImage) (p : SineParams) : NRGBA :=
  fold_left
    (fun m px => if F64.neq (sine_w p) 0 then paint (sine_c p) (sineRun captcha p px) m else m)
    (seqZ 0 (sine_px2 p)) (nrgba captcha).

Definition DrawSineLine (captcha : CaptchaImage) : M CaptchaImage :=
  match Error captcha with
  | Some _ => ret captcha
  | None =>
      p <- sineParams captcha ;;
      ret (withPixels captcha (sinePlot captcha p))
  end.

(** The five pixels [drawBeeline] sets around the current point. *)
Definition beelineStamp (m : NRGBA) (p : Point) (lineColor : RGBA) : NRGBA :=
  let m := NRGBA_Set m (X p) (Y p) lineColor in
  let m := NRGBA_Set m (GoInt.add (X p) 1) (Y p) lineColor in
  let m := NRGBA_Set m (GoInt.sub (X p) 1) (Y p) lineColor in
  let m := NRGBA_Set m (GoInt.add (X p) 2) (Y p) lineColor in
  NRGBA_Set m (GoInt.sub (X p) 2) (Y p) lineColor.

(** The stepping of [drawBeeline]: the new decision variable and point. *)
Definition beelineStep (point1 : Point) (dx dy err sx sy : Z) : Z * Point :=
  let e2 := IntFloat.mul err 2 in
  let '(err, x) := if e2 >? IntFloat.opp dy
                   then (IntFloat.sub err dy, GoInt.add (X point1) sx)
                   else (err, X point1) in
  let '(err, y) := if e2 <? dx
                   then (IntFloat.add err dx, GoInt.add (Y point1) sy)
                   else (err, Y point1) in
  (err, mkPoint x y).

(** The unbounded [for] of [drawBeeline]. *)
Fixpoint beelineLoop (fuel : nat) (m : NRGBA) (point1 point2 : Point)
    (dx dy err sx sy : Z) (lineColor : RGBA) : outcome NRGBA :=
  match fuel with
  | O => OutOfFuel
  | S fuel' =>
      let m := beelineStamp m point1 lineColor in
      if (X point1 =? X point2) && (Y point1 =? Y point2) then Ret m
      else
        let '(err, point1) := beelineStep point1 dx dy err sx sy in
        beelineLoop fuel' m point1 point2 dx dy err sx sy lineColor
  end.

Definition drawBeeline (fuel : nat) (captcha : CaptchaImage) (point1 point2 : Point)
    (lineColor : RGBA) : outcome CaptchaImage :=
  match Error captcha with
  | Some _ => Ret captcha
  | None =>
      let dx := IntFloat.abs (IntFloat.of_int (GoInt.sub (X point1) (X point2))) in
      let dy := IntFloat.abs (IntFloat.of_int (GoInt.sub (Y point2) (Y point1))) in
      let sx := if X point1 >=? X point2 then -1 else 1 in
      let sy := if Y point1 >=? Y point2 then -1 else 1 in
      let err := IntFloat.sub dx dy in
      match beelineLoop fuel (nrgba captcha) point1 point2 dx dy err sx sy lineColor with
      | Ret m => Ret (withPixels captcha m)
      | Panic msg => Panic msg
      | OutOfFuel => OutOfFuel
      end
  end.

Definition DrawLine (fuel : nat) (captcha : CaptchaImage) (num : Z) : M CaptchaImage :=
  match Error captcha with
  | Some _ => ret captcha
  | None =>
      let first := GoInt.quot (width captcha) 10 in
      let end_ := GoInt.mul first 9 in
      let y := GoInt.quot (height captcha) 3 in
      forM (seqZ 0 num)
           (fun i captcha =>
              x1 <- Intn first ;;
              y1 <- Intn y ;;
              x2 <- Intn first ;;
              y2 <- Intn y ;;
              let point1 := mkPoint x1 y1 in
              let point2 := mkPoint (GoInt.add x2 end_) y2 in
              ys <- (if GoInt.rem i 2 =? 0 then
                       a <- Intn y ;;
                       b <- Intn y ;;
                       ret (GoInt.add a (GoInt.mul y 2), b)
                     else
                       a <- Intn y ;;
                       b <- Intn y ;;
                       ret (GoInt.add a (GoInt.mul y (GoInt.rem i 2)),
                            GoInt.add b (GoInt.mul y 2))) ;;
              let point1 := mkPoint (X point1) (fst ys) in
              let point2 := mkPoint (X point2) (snd ys) in
              c <- randDeepColor ;;
              lift (drawBeeline fuel captcha point1 point2 c))
           captcha
  end.

Definition DrawBorder (captcha : CaptchaImage) (borderColor : RGBA) : M CaptchaImage :=
  match Error captcha with
  | Some _ => ret captcha
  | None =>
      let rows := x ← seqZ 0 (width captcha);
                  [(x, 0); (x, GoInt.sub (height captcha) 1)] in
      let cols := y ← seqZ 0 (height captcha);
                  [(0, y); (GoInt.sub (width captcha) 1, y)] in
      ret (withPixels captcha (paint borderColor cols (paint borderColor rows (nrgba captcha))))
  end.

Definition DrawNoise (captcha : CaptchaImage) (complex : CaptchaComplex) : M CaptchaImage :=
  match Error captcha with
  | Some _ => ret captcha
  | None =>
      let density := if complex =? CaptchaComplexLower then 28
                     else if complex =? CaptchaComplexMedium then 18
                     else if complex =? CaptchaComplexHigh then 8
                     else 18 in
      let maxSize := GoInt.quot (GoInt.mul (height captcha) (width captcha)) density in
      m <- forM (seqZ 0 maxSize)
             (fun _ m =>
                rw <- Intn (width captcha) ;;
                rh <- Intn (height captcha) ;;
                c1 <- randColor ;;
                let m := NRGBA_Set m rw rh c1 in
                size <- Intn maxSize ;;
                if GoInt.rem size 3 =? 0 then
                  c2 <- randColor ;;
                  ret (NRGBA_Set m (GoInt.add rw 1) (GoInt.add rh 1) c2)
                else ret m)
             (nrgba captcha) ;;
      ret (withPixels captcha m)
  end.

(** [RandFontFamily]: a file of the registry, read and parsed.  (The
    errors are also logged, which leaves no trace in the result.) *)
Definition RandFontFamily : M (Font * option error) :=
  g <- getGlobals ;;
  k <- Intn (Z.of_nat (length (fontFamily g))) ;;
  match fontFamily g !! Z.to_nat k with
  | None => panic "runtime error: index out of range"
  | Some fontFile =>
      let '(fontBytes, err) := ReadFile fontFile in
      match err with
      | Some e => ret (emptyFont, Some e)
      | None =>
          let '(f, err) := ParseFont fontBytes in
          match err with
          | Some e => ret (emptyFont, Some e)
          | None => ret (f, None)
          end
      end
  end.

(** A [for] loop whose body may [return]: [inl] goes on with the next
    value, [inr] leaves the function with its result. *)
Fixpoint forReturn {T S} (xs : list T) (body : T -> S -> M (S + S)) (s : S) : M S :=
  match xs with
  | [] => ret s
  | x :: xs' =>
      r <- body x s ;;
      match r with
      | inl s' => forReturn xs' body s'
      | inr s' => ret s'
      end
  end.

(** The tail shared by the two text loops: set the font, draw the text,
    record an error of the rasteriser on the canvas. *)
Definition stamp (c : Context) (captcha : CaptchaImage) (f : Font) (text : string)
    (pt : Z * Z) : CaptchaImage + CaptchaImage :=
  let c := mkContext (ctxDPI c) (ctxClip c) (ctxHinting c) (ctxSrc c) (ctxFontSize c)
                     (Some f) in
  let '(m, err) := DrawString c (nrgba captcha) text pt in
  let captcha := withPixels captcha m in
  match err with
  | Some e => inr (withError captcha e)
  | None => inl captcha
  end.

Definition DrawTextNoise (captcha : CaptchaImage) (complex : CaptchaComplex)
  : M CaptchaImage :=
  match Error captcha with
  | Some _ => ret captcha
  | None =>
      let density := if complex =? CaptchaComplexLower then 2000
                     else if complex =? CaptchaComplexMedium then 1500
                     else if complex =? CaptchaComplexHigh then 1000
                     else 1500 in
      let maxSize := GoInt.quot (GoInt.mul (height captcha) (width captcha)) density in
      g <- getGlobals ;;
      let c := newContext captcha g in
      k <- Intn 7 ;;
      let rawFontSize :=
        (F64.of_int (height captcha) / (1 + F64.of_int k / F64.of_int 10))%float in
      forReturn (seqZ 0 maxSize)
        (fun _ captcha =>
           rw <- Intn (width captcha) ;;
           rh <- Intn (height captcha) ;;
           text <- RandText 1 ;;
           j <- Intn 5 ;;
           let fontSize := (rawFontSize / 2 + F64.of_int j)%float in
           src <- RandLightColor ;;
           let c := mkContext (ctxDPI c) (ctxClip c) (ctxHinting c) src fontSize (ctxFont c) in
           fe <- RandFontFamily ;;
           match snd fe with
           | Some e => ret (inr (withError captcha e))
           | None => ret (stamp c captcha (fst fe) text (rw, rh))
           end)
        captcha
  end.

Definition DrawText (captcha : CaptchaImage) (text : string) : M CaptchaImage :=
  match Error captcha with
  | Some _ => ret captcha
  | None =>
      g <- getGlobals ;;
      let c := newContext captcha g in
      fontWidth <- lift (go_div (width captcha) (Z.of_nat (String.length text))) ;;
      forReturn (rangeString text)
        (fun '(i, s) captcha =>
           k <- Intn 7 ;;
           let fontSize :=
             (F64.of_int (height captcha) / (1 + F64.of_int k / F64.of_int 9))%float in
           src <- randDeepColor ;;
           let c := mkContext (ctxDPI c) (ctxClip c) (ctxHinting c) src fontSize (ctxFont c) in
           fe <- RandFontFamily ;;
           match snd fe with
           | Some e => ret (inr (withError captcha e))
           | None =>
               q <- lift (go_div fontWidth (F64.to_int fontSize)) ;;
               let x := GoInt.add (GoInt.mul fontWidth i) q in
               j <- Intn (GoInt.quot (height captcha) 2) ;;
               let y := GoInt.add (GoInt.add 5 j) (F64.to_int (fontSize / 2)%float) in
               ret (stamp c captcha (fst fe) s (x, y))
           end)
        captcha
  end.



(** [ioutil.ReadDir], [strings.ToUpper] and [string(os.PathSeparator)]. *)
Variable ReadDir : string -> list FileInfo * option error.
Variable ToUpper : string -> string.
Variable PathSeparator : string.

(** [strings.HasSuffix]:
    [len(s) >= len(suffix) && s[len(s)-len(suffix):] == suffix]. *)
Definition HasSuffix (s suffix : string) : bool :=
  (String.length suffix <=? String.length s)%nat
  && String.eqb (String.substring (String.length s - String.length suffix)
                                  (String.length suffix) s) suffix.

(** [ReadFonts]: the files of a directory, sub-directories left out, whose
    upper-cased name ends in the upper-cased suffix, registered in the
    order of the listing. *)
Definition ReadFonts (dirPth suffix : string) : M (option error) :=
  let '(dir, err) := ReadDir dirPth in
  match err with
  | Some e => ret (Some e)
  | None =>
      let PthSep := PathSeparator in
      let suffix := ToUpper suffix in
      let files :=
        fold_left
          (fun files fi =>
             if IsDir fi then files
             else if HasSuffix (ToUpper (Name fi)) suffix
                  then files ++ [dirPth +:+ PthSep +:+ Name fi]
                  else files)
          dir [] in
      _ <- SetFontFamily files ;;
      ret None
  end.

(** ** Descriptions used by the statements *)

(** The points [drawBeeline] visits, and the five coordinates it sets at
    each of them. *)
Fixpoint beelineTrace (fuel : nat) (point1 point2 : Point) (dx dy err sx sy : Z)
  : option (list Point) :=
  match fuel with
  | O => None
  | S fuel' =>
      if (X point1 =? X point2) && (Y point1 =? Y point2) then Some [point1]
      else
        let '(err, next) := beelineStep point1 dx dy err sx sy in
        cons point1 <$> beelineTrace fuel' next point2 dx dy err sx sy
  end.

Definition stampPoints (p : Point) : list (Z * Z) :=
  [(X p, Y p); (GoInt.add (X p) 1, Y p); (GoInt.sub (X p) 1, Y p);
   (GoInt.add (X p) 2, Y p); (GoInt.sub (X p) 2, Y p)].

(** The pixels [DrawSineLine] aims at: for a column [px] of the extent,
    the [height/5] coordinates to the right of it, [px+1 .. px+height/5],
    all on the row of the curve above [px]. *)
Definition sineStroke (captcha : CaptchaImage) (p : SineParams) (x y : Z) : Prop :=
  F64.neq (sine_w p) 0 = true
  /\ exists px i : Z,
       0 <= px < sine_px2 p
       /\ 1 <= i <= GoInt.quot (height captcha) 5
       /\ x = GoInt.add px i
       /\ y = sineRow captcha p px.

(** The frame [DrawBorder] aims at: the rows 0 and [height - 1] over the
    columns [[0, width)], and the columns 0 and [width - 1] over the rows
    [[0, height)]. *)
Definition onFrame (captcha : CaptchaImage) (x y : Z) : Prop :=
  (0 <= x < width captcha /\ (y = 0 \/ y = height captcha - 1))
  \/ (0 <= y < height captcha /\ (x = 0 \/ x = width captcha - 1)).

(** The directory entries [ReadFonts] registers, and the path it gives
    them. *)
Definition isFontFile (suffix : string) (fi : FileInfo) : bool :=
  negb (IsDir fi) && HasSuffix (ToUpper (Name fi)) (ToUpper suffix).

Definition fontPath (dirPth : string) (fi : FileInfo) : string :=
  dirPth +:+ PathSeparator +:+ Name fi.

(** The outcome of loading one registered file: [ioutil.ReadFile] then
    [freetype.ParseFont], the empty font beside either error. *)
Definition loadFont (fontFile : string) : Font * option error :=
  match ReadFile fontFile with
  | (_, Some e) => (emptyFont, Some e)
  | (fontBytes, None) =>
      match ParseFont fontBytes with
      | (_, Some e) => (emptyFont, Some e)
      | (f, None) => (f, None)
      end
  end.

(** The stepping loop of [drawBeeline] on its way to [(x2, y2)]: [rx]
    columns and [ry] rows are left to go, and the decision variable is the
    one Bresenham's algorithm has there. *)
Definition onTheWay (x2 y2 dx dy sx sy x y err rx ry : Z) : Prop :=
  GoInt.in_range x /\ GoInt.in_range y
  /\ 0 <= rx <= dx /\ 0 <= ry <= dy
  /\ x2 = x + sx * rx /\ y2 = y + sy * ry
  /\ err = dx - dy + rx * dy - ry * dx
  /\ - 3 * dy <= 2 * err <= 3 * dx.

(** A pixel buffer after strokes of one colour: the bounds are the same
    and each pixel holds the colour it had or the stroke's. *)
Definition tinted (c : RGBA) (m0 m : NRGBA) : Prop :=
  Bounds m = Bounds m0
  /\ forall x y, NRGBA_At m x y = NRGBA_At m0 x y \/ NRGBA_At m x y = nrgbaModel c.

(** Counting columns in [float64]: [float64(n) + 1] is [float64(n + 1)],
    and [float64(n) < float64(n)] is false; checked for the [k] values
    from [n] on. *)
Definition countsExactly (n : Z) : bool :=
  PrimFloat.Leibniz.eqb (F64.of_int n + 1)%float (F64.of_int (n + 1))
  && negb (F64.of_int n <? F64.of_int n)%float.

Fixpoint countsFrom (k : nat) (n : Z) : bool :=
  match k with
  | O => true
  | S k' => countsExactly n && countsFrom k' (n + 1)
  end.

(** The font size [DrawText] gives a glyph, [height / (1 + k/9)], and the
    check that its integer part is not 0 for each of the seven values of
    [k], for the [n] heights from [h] on. *)
Definition glyphSize (h k : Z) : float :=
  (F64.of_int h / (1 + F64.of_int k / F64.of_int 9))%float.

Definition glyphSizeOk (h : Z) : bool :=
  forallb (fun k => negb (F64.to_int (glyphSize h k) =? 0)) [0; 1; 2; 3; 4; 5; 6].

Fixpoint glyphSizesFrom (n : nat) (h : Z) : bool :=
  match n with
  | O => true
  | S n' => glyphSizeOk h && glyphSizesFrom n' (h + 1)
  end.

(** The bytes of a string are bytes of the alphabet. *)
Definition overAlphabet (alphabet s : string) : Prop :=
  forall (i : nat) (a : Ascii.ascii),
    String.get i s = Some a -> exists j : nat, String.get j alphabet = Some a.

(** The cell of the grid spanned by two points, widened by two columns on
    either side: where a stroke between them can fall. *)
Definition inStrokeBox (point1 point2 : Point) (x y : Z) : Prop :=
  Z.min (X point1) (X point2) - 2 <= x <= Z.max (X point1) (X point2) + 2
  /\ Z.min (Y point1) (Y point2) <= y <= Z.max (Y point1) (Y point2).

(** * Facts *)

(** ** Integers and rounding *)

Lemma wrap_small z : GoInt.in_range z -> GoInt.wrap z = z.
Proof.
  unfold GoInt.in_range, GoInt.min_int, GoInt.max_int, GoInt.wrap. intros H.
  rewrite Z.mod_small; lia.
Qed.

Lemma wrap_in_range z : GoInt.in_range (GoInt.wrap z).
Proof.
  unfold GoInt.in_range, GoInt.min_int, GoInt.max_int, GoInt.wrap.
  pose proof (Z.mod_pos_bound (z + 2 ^ 63) (2 ^ 64) ltac:(lia)). lia.
Qed.

Lemma rne_exact z : Z.abs z < 2 ^ 53 -> IntFloat.rne z = z.
Proof.
  intros H. unfold IntFloat.rne.
  destruct (Z.eq_dec z 0) as [->|Hz]; [reflexivity|].
  assert (Hl : Z.log2 (Z.abs z) < 53) by (apply Z.log2_lt_pow2; lia).
  destruct (Z.leb_spec (Z.log2 (Z.abs z) - 52) 0); [reflexivity | lia].
Qed.

(** Doubling a value below [2^53] is exact as well. *)
Lemma rne_double z : Z.abs z < 2 ^ 53 -> IntFloat.rne (z * 2) = z * 2.
Proof.
  intros H. destruct (Z_lt_dec (Z.abs (z * 2)) (2 ^ 53)) as [Hs|Hb].
  - now apply rne_exact.
  - unfold IntFloat.rne.
    assert (Hlog : Z.log2 (Z.abs (z * 2)) = 53).
    { apply Z.log2_unique; lia. }
    rewrite Hlog. change (53 - 52 <=? 0) with false. cbv iota.
    change (2 ^ (53 - 52)) with 2. cbv zeta.
    replace (Z.abs (z * 2)) with (Z.abs z * 2) by lia.
    rewrite Z.mod_mul, Z.div_mul by lia. simpl (2 * 0 <? 2). cbv iota.
    destruct z; simpl; lia.
Qed.

(** The model agrees with the hardware conversion where the two can be
    compared by evaluation. *)
Example rne_tie_even :
  IntFloat.rne (2 ^ 54 - 1) = 2 ^ 54 /\ F64.to_int (F64.of_int (2 ^ 54 - 1)) = 2 ^ 54.
Proof. split; vm_compute; reflexivity. Qed.

Example rne_tie_down :
  IntFloat.rne (2 ^ 53 + 1) = 2 ^ 53 /\ F64.to_int (F64.of_int (2 ^ 53 + 1)) = 2 ^ 53.
Proof. split; vm_compute; reflexivity. Qed.

Example rne_up :
  IntFloat.rne (2 ^ 53 + 3) = 2 ^ 53 + 4
  /\ F64.to_int (F64.of_int (2 ^ 53 + 3)) = 2 ^ 53 + 4.
Proof. split; vm_compute; reflexivity. Qed.

Example rne_absorbs :
  IntFloat.rne (- 2 ^ 54 + 1) = - 2 ^ 54
  /\ F64.to_int (PrimFloat.add (F64.of_int (- 2 ^ 54)) (F64.of_int 1)) = - 2 ^ 54.
Proof. split; vm_compute; reflexivity. Qed.

(** The same on the hardware type, for the line from (0,0) to (1, 2^54):
    [err] starts at [-2^54], [e2 > -dy] is false, [e2 < dx] is true, and
    [err + dx] is [err] again. *)
Example binary64_freezes_err :
  F64.to_int (PrimFloat.abs (F64.of_int (0 - 1)) - PrimFloat.abs (F64.of_int (2 ^ 54 - 0)))
    = - 2 ^ 54
  /\ (- F64.of_int (2 ^ 54) <? F64.of_int (- 2 ^ 54) * 2)%float = false
  /\ (F64.of_int (- 2 ^ 54) * 2 <? F64.of_int 1)%float = true
  /\ (F64.of_int (- 2 ^ 54) + F64.of_int 1 =? F64.of_int (- 2 ^ 54))%float = true.
Proof. repeat split; vm_compute; reflexivity. Qed.

Example of_int_extremes :
  F64.to_int (F64.of_int GoInt.min_int) = GoInt.min_int
  /\ F64.to_int (F64.of_int (- 7)) = - 7
  /\ F64.to_int (F64.of_int 24 * 0x1.999999999999ap-1)%float = 19.
Proof. repeat split; vm_compute; reflexivity. Qed.

(** ** Pixels *)

Lemma Bounds_Set m x y c : Bounds (NRGBA_Set m x y c) = Bounds m.
Proof. unfold NRGBA_Set. destruct (inBounds (Bounds m) x y); reflexivity. Qed.

Lemma At_Set m x y c x' y' :
  NRGBA_At (NRGBA_Set m x y c) x' y' =
  if inBounds (Bounds m) x' y' && bool_decide ((x', y') = (x, y))
  then nrgbaModel c else NRGBA_At m x' y'.
Proof.
  unfold NRGBA_At. rewrite Bounds_Set.
  destruct (inBounds (Bounds m) x' y') eqn:Hin; [|reflexivity].
  unfold NRGBA_Set. case_bool_decide as Heq; simpl.
  - inversion Heq; subst. rewrite Hin. simpl. now rewrite lookup_insert_eq.
  - destruct (inBounds (Bounds m) x y); [|reflexivity].
    simpl. rewrite lookup_insert_ne; [reflexivity | congruence].
Qed.

Lemma Bounds_paint c pts m : Bounds (paint c pts m) = Bounds m.
Proof.
  revert m. induction pts as [|p pts IH]; intros m; [reflexivity|].
  change (paint c (p :: pts) m) with (paint c pts (NRGBA_Set m (fst p) (snd p) c)).
  rewrite IH. apply Bounds_Set.
Qed.

(** After [paint], a pixel of the bounds holds the new colour exactly when
    its coordinates are in the list. *)
Lemma At_paint c pts m x y :
  NRGBA_At (paint c pts m) x y =
  if inBounds (Bounds m) x y && bool_decide ((x, y) ∈ pts)
  then nrgbaModel c else NRGBA_At m x y.
Proof.
  revert m. induction pts as [|[px py] pts IH]; intros m.
  - simpl. now rewrite andb_false_r.
  - change (paint c ((px, py) :: pts) m) with (paint c pts (NRGBA_Set m px py c)).
    rewrite IH, Bounds_Set, At_Set.
    destruct (inBounds (Bounds m) x y); [|reflexivity]. simpl.
    destruct (decide ((x, y) ∈ pts)) as [I|I].
    + rewrite (bool_decide_eq_true_2 _ I).
      rewrite bool_decide_eq_true_2 by (apply elem_of_cons; now right).
      reflexivity.
    + rewrite (bool_decide_eq_false_2 _ I).
      destruct (decide ((x, y) = (px, py))) as [E|E].
      * rewrite (bool_decide_eq_true_2 _ E).
        rewrite bool_decide_eq_true_2 by (apply elem_of_cons; now left).
        reflexivity.
      * rewrite (bool_decide_eq_false_2 _ E).
        rewrite bool_decide_eq_false_2; [reflexivity|].
        rewrite elem_of_cons. intros [H|H]; contradiction.
Qed.

Lemma paint_app c p1 p2 m : paint c (p1 ++ p2) m = paint c p2 (paint c p1 m).
Proof. unfold paint. apply fold_left_app. Qed.

(** ** Failed canvases *)

(** C1 — Sticky first error.  On a canvas whose [Error] is already set,
    each of the seven drawing operations returns at once: the result is the
    canvas it was given, with every pixel and the stored error as they
    were, and nothing is drawn from the random source.  No later operation
    can therefore overwrite a stored error. *)
Theorem sticky_first_error (captcha : CaptchaImage) (e : error) :
  Error captcha = Some e ->
  forall (g : Globals) (fuel : nat) (borderColor : RGBA) (num : Z)
         (complex : CaptchaComplex) (text : string),
    DrawBorder captcha borderColor g = Ret (captcha, g)
    /\ DrawHollowLine fuel captcha g = Ret (captcha, g)
    /\ DrawSineLine captcha g = Ret (captcha, g)
    /\ DrawLine fuel captcha num g = Ret (captcha, g)
    /\ DrawNoise captcha complex g = Ret (captcha, g)
    /\ DrawTextNoise captcha complex g = Ret (captcha, g)
    /\ DrawText captcha text g = Ret (captcha, g).
Proof.
  intros He g fuel borderColor num complex text.
  unfold DrawBorder, DrawHollowLine, DrawSineLine, DrawLine, DrawNoise,
    DrawTextNoise, DrawText.
  rewrite He. repeat split; reflexivity.
Qed.

(** The line primitive obeys the same guard. *)
Lemma drawBeeline_failed (captcha : CaptchaImage) (e : error) fuel p1 p2 c :
  Error captcha = Some e -> drawBeeline fuel captcha p1 p2 c = Ret captcha.
Proof. intros He. unfold drawBeeline. now rewrite He. Qed.

(** ** Export *)

(** C2 (amended) — [SaveImage] never reads the [Error] field.  For each of
    the three supported formats it hands the pixel buffer to the format's
    encoder, with quality 100 for JPEG and 256 colours for GIF, appends
    the bytes to the writer and returns the encoder's own error, whatever
    error the canvas stores; the stored error stays on the canvas for the
    caller to read. *)
Theorem SaveImage_returns_encoder_result (captcha : CaptchaImage) (w : list Z) :
  SaveImage captcha w ImageFormatPng
    = (captcha, w ++ fst (png_Encode (nrgba captcha)), snd (png_Encode (nrgba captcha)))
  /\ SaveImage captcha w ImageFormatJpeg
    = (captcha, w ++ fst (jpeg_Encode (nrgba captcha) 100),
       snd (jpeg_Encode (nrgba captcha) 100))
  /\ SaveImage captcha w ImageFormatGif
    = (captcha, w ++ fst (gif_Encode (nrgba captcha) 256),
       snd (gif_Encode (nrgba captcha) 256)).
Proof.
  unfold SaveImage, ImageFormatPng, ImageFormatJpeg, ImageFormatGif. simpl.
  destruct (png_Encode (nrgba captcha)), (jpeg_Encode (nrgba captcha) 100),
    (gif_Encode (nrgba captcha) 256).
  repeat split; reflexivity.
Qed.

(** C6 — A format that is none of PNG, JPEG and GIF makes [SaveImage]
    return the error "not supported image format"; nothing is written and
    the canvas, with every pixel, is as it was. *)
Theorem SaveImage_unsupported_format (captcha : CaptchaImage) (w : list Z)
    (imageFormat : ImageFormat) :
  imageFormat <> ImageFormatPng ->
  imageFormat <> ImageFormatJpeg ->
  imageFormat <> ImageFormatGif ->
  SaveImage captcha w imageFormat = (captcha, w, Some "not supported image format").
Proof.
  intros Hp Hj Hg. unfold SaveImage.
  destruct (Z.eqb_spec imageFormat ImageFormatPng); [contradiction|].
  destruct (Z.eqb_spec imageFormat ImageFormatJpeg); [contradiction|].
  destruct (Z.eqb_spec imageFormat ImageFormatGif); [contradiction|].
  reflexivity.
Qed.

(** ** Fonts and text *)

(** C7 (the code at the failing input) — With an empty registry
    [RandFontFamily] asks [rand.Intn] for a value below 0 entries, and that
    call panics: no error value is returned. *)
Theorem RandFontFamily_empty_registry_panics (rs : list Z) (d : float) :
  RandFontFamily (mkGlobals rs [] d) = Panic "invalid argument to Intn".
Proof. reflexivity. Qed.

(** C10 — [DrawText] needs a non-empty text.  On a canvas without a stored
    error the empty string makes [captcha.width / len(text)] a division by
    zero: the call panics and records nothing on the canvas.  For every
    other text the length is positive and the division yields the
    truncated quotient. *)
Theorem DrawText_empty_text_panics (captcha : CaptchaImage) (g : Globals) :
  Error captcha = None ->
  DrawText captcha "" g = Panic "runtime error: integer divide by zero"
  /\ forall text : string,
       text <> "" ->
       0 < Z.of_nat (String.length text)
       /\ go_div (width captcha) (Z.of_nat (String.length text))
          = Ret (GoInt.quot (width captcha) (Z.of_nat (String.length text))).
Proof.
  intros He. split.
  - unfold DrawText. rewrite He. reflexivity.
  - intros text Hne. destruct text as [|a text]; [congruence|].
    assert (Hlen : 0 < Z.of_nat (String.length (String a text))) by (simpl; lia).
    split; [exact Hlen|]. unfold go_div.
    destruct (Z.eqb_spec (Z.of_nat (String.length (String a text))) 0); [lia|reflexivity].
Qed.

(** ** Colour generators *)

Lemma Intn_range (n : Z) (g : Globals) :
  0 < n ->
  exists v g', Intn n g = Ret (v, g') /\ 0 <= v < n
               /\ fontFamily g' = fontFamily g /\ dpi g' = dpi g.
Proof.
  intros Hn. unfold Intn. destruct (Z.leb_spec n 0); [lia|].
  destruct (rand g) as [|d ds].
  - exists 0, g. repeat split; lia.
  - exists (d mod n), (mkGlobals ds (fontFamily g) (dpi g)).
    pose proof (Z.mod_pos_bound d n Hn). repeat split; simpl; lia.
Qed.

Lemma Intn_next (n d : Z) (ds : list Z) (fs : list string) (p : float) :
  0 <= d < n -> Intn n (mkGlobals (d :: ds) fs p) = Ret (d, mkGlobals ds fs p).
Proof.
  intros H. unfold Intn. destruct (Z.leb_spec n 0); [lia|].
  simpl. now rewrite Z.mod_small.
Qed.

Lemma uint8_small z : 0 <= z <= 255 -> uint8 z = z.
Proof. intros H. unfold uint8. apply Z.mod_small. lia. Qed.

Lemma randColor_draws (g : Globals) :
  exists red green g',
    randColor g = Ret (colorOf red green, g')
    /\ 0 <= red <= 254 /\ 0 <= green <= 254.
Proof.
  unfold randColor, bind.
  destruct (Intn_range 255 g ltac:(lia)) as (red & g1 & -> & Hr & _).
  destruct (Intn_range 255 g1 ltac:(lia)) as (green & g2 & -> & Hg & _).
  destruct (Intn_range 255 g2 ltac:(lia)) as (blue & g3 & -> & Hb & _).
  exists red, green, g3. split; [|lia]. unfold ret, colorOf. do 2 f_equal.
  unfold GoInt.add, GoInt.sub.
  rewrite (wrap_small (red + green)) by (unfold GoInt.in_range, GoInt.min_int, GoInt.max_int; lia).
  rewrite (wrap_small (400 - green)) by (unfold GoInt.in_range, GoInt.min_int, GoInt.max_int; lia).
  rewrite (wrap_small (400 - green - red)) by (unfold GoInt.in_range, GoInt.min_int, GoInt.max_int; lia).
  rewrite !uint8_small by lia.
  f_equal. destruct (Z.gtb_spec (red + green) 400).
  - simpl. apply uint8_small. lia.
  - destruct (Z.gtb_spec (400 - green - red) 255).
    + rewrite Z.min_r by lia. apply uint8_small. lia.
    + rewrite Z.min_l by lia. apply uint8_small. lia.
Qed.

(** C5 (amended) — Every colour [randColor] returns has red and green in
    [[0, 254]] (the bound 255 of [rand.Intn] is exclusive), and every pair
    of values in that range is returned for some state of the source; blue
    is 0 when red + green exceeds 400 and otherwise 400 - red - green
    capped at 255; alpha is 255. *)
Theorem randColor_channels :
  (forall g : Globals,
     exists c g', randColor g = Ret (c, g')
       /\ 0 <= R c <= 254 /\ 0 <= G c <= 254
       /\ B c = (if R c + G c >? 400 then 0 else Z.min (400 - R c - G c) 255)
       /\ 0 <= B c <= 255
       /\ A c = 255)
  /\ (forall red green : Z,
        0 <= red <= 254 -> 0 <= green <= 254 ->
        exists g c g', randColor g = Ret (c, g') /\ R c = red /\ G c = green).
Proof.
  split.
  - intros g. destruct (randColor_draws g) as (red & green & g' & Hc & Hr & Hg).
    exists (colorOf red green), g'. split; [exact Hc|]. simpl.
    repeat split; try lia.
    + destruct (red + green >? 400); [reflexivity | f_equal; lia].
    + destruct (Z.gtb_spec (red + green) 400); lia.
    + destruct (Z.gtb_spec (red + green) 400); lia.
  - intros red green Hr Hg.
    exists (mkGlobals [red; green] [] 72%float).
    eexists _, _. split.
    + unfold randColor, bind.
      rewrite (Intn_next 255 red) by lia. rewrite (Intn_next 255 green) by lia.
      reflexivity.
    + simpl. rewrite !uint8_small by lia. split; reflexivity.
Qed.

Lemma deepChannel_exact (ch increase : Z) :
  0 <= ch <= 255 -> 30 <= increase <= 284 ->
  deepChannel ch increase = Z.abs (Z.min (ch - increase) 255)
  /\ deepChannel ch increase = Z.abs (ch - increase)
  /\ 0 <= deepChannel ch increase <= 284.
Proof.
  intros Hc Hi. unfold deepChannel, IntFloat.abs, IntFloat.min, IntFloat.sub, IntFloat.of_int.
  rewrite (rne_exact ch) by lia. rewrite (rne_exact (ch - increase)) by lia.
  rewrite Z.min_l by lia. lia.
Qed.

(** C4 — Every colour [randDeepColor] returns is made from one
    [randColor] result [base] and one further draw [k], the same
    [increase = 30 + k] of [[30, 284]] for the three channels: each channel
    is [uint8(abs(min(base - increase, 255)))] and alpha is 255.  The
    minimum is taken before the absolute value, so it never binds and a
    channel below the increase comes out as [increase - base], not as 0:
    from a base channel 0 an increase of 255 leads to 255. *)
Theorem randDeepColor_channels :
  (forall g : Globals,
     exists base g1 k g',
       randColor g = Ret (base, g1)
       /\ Intn 255 g1 = Ret (k, g')
       /\ 30 <= 30 + k <= 284
       /\ randDeepColor g
          = Ret (mkRGBA (uint8_of_float (Z.abs (Z.min (R base - (30 + k)) 255)))
                        (uint8_of_float (Z.abs (Z.min (G base - (30 + k)) 255)))
                        (uint8_of_float (Z.abs (Z.min (B base - (30 + k)) 255)))
                        255, g')
       /\ (forall ch, ch = R base \/ ch = G base \/ ch = B base ->
             Z.abs (Z.min (ch - (30 + k)) 255) = Z.abs (ch - (30 + k))))
  /\ (exists g g', randDeepColor g = Ret (mkRGBA 255 255 0 255, g')
                   /\ randColor g = Ret (mkRGBA 0 0 255 255, mkGlobals [225] [] 72%float)).
Proof.
  split.
  - intros g. destruct (randColor_draws g) as (red & green & g1 & Hc & Hr & Hg).
    destruct (Intn_range 255 g1 ltac:(lia)) as (k & g' & Hk & Hkr & _).
    exists (colorOf red green), g1, k, g'.
    split; [exact Hc|]. split; [exact Hk|]. split; [lia|].
    assert (Hb : 0 <= B (colorOf red green) <= 255).
    { simpl. destruct (Z.gtb_spec (red + green) 400); lia. }
    split.
    + unfold randDeepColor, bind. rewrite Hc, Hk. unfold ret.
      assert (Hinc : IntFloat.of_int (GoInt.add 30 k) = 30 + k).
      { unfold IntFloat.of_int, GoInt.add.
        rewrite wrap_small by (unfold GoInt.in_range, GoInt.min_int, GoInt.max_int; lia).
        apply rne_exact. lia. }
      rewrite Hinc.
      destruct (deepChannel_exact (R (colorOf red green)) (30 + k)) as (-> & _);
        [simpl; lia | lia |].
      destruct (deepChannel_exact (G (colorOf red green)) (30 + k)) as (-> & _);
        [simpl; lia | lia |].
      destruct (deepChannel_exact (B (colorOf red green)) (30 + k)) as (-> & _);
        [exact Hb | lia |].
      reflexivity.
    + intros ch Hch. rewrite Z.min_l; [reflexivity|].
      destruct Hch as [-> | [-> | ->]]; simpl in *; lia.
  - exists (mkGlobals [0; 0; 0; 225] [] 72%float), (mkGlobals [] [] 72%float).
    split; vm_compute; reflexivity.
Qed.

(** ** The line primitive *)

Lemma beelineStamp_paint m p c : beelineStamp m p c = paint c (stampPoints p) m.
Proof. reflexivity. Qed.

Lemma beelineLoop_trace fuel m point1 point2 dx dy err sx sy c :
  beelineLoop fuel m point1 point2 dx dy err sx sy c =
  match beelineTrace fuel point1 point2 dx dy err sx sy with
  | Some tr => Ret (paint c (tr ≫= stampPoints) m)
  | None => OutOfFuel
  end.
Proof.
  revert m point1 err. induction fuel as [|fuel IH]; intros m point1 err; [reflexivity|].
  cbn [beelineLoop beelineTrace].
  destruct ((X point1 =? X point2) && (Y point1 =? Y point2)); [reflexivity|].
  destruct (beelineStep point1 dx dy err sx sy) as [err' next].
  rewrite IH. destruct (beelineTrace fuel next point2 dx dy err' sx sy) as [tr|];
    [|reflexivity].
  change (cons point1 <$> Some tr) with (Some (point1 :: tr)). cbv iota beta.
  change ((point1 :: tr) ≫= stampPoints) with (stampPoints point1 ++ (tr ≫= stampPoints)).
  now rewrite paint_app, beelineStamp_paint.
Qed.

Lemma beelineTrace_more_fuel fuel fuel' point1 point2 dx dy err sx sy tr :
  beelineTrace fuel point1 point2 dx dy err sx sy = Some tr ->
  (fuel <= fuel')%nat ->
  beelineTrace fuel' point1 point2 dx dy err sx sy = Some tr.
Proof.
  revert fuel' point1 err tr.
  induction fuel as [|fuel IH]; intros fuel' point1 err tr Htr Hle; [discriminate|].
  destruct fuel' as [|fuel']; [lia|]. simpl in *.
  destruct ((X point1 =? X point2) && (Y point1 =? Y point2)); [exact Htr|].
  destruct (beelineStep point1 dx dy err sx sy) as [err' next].
  destruct (beelineTrace fuel next point2 dx dy err' sx sy) as [tr0|] eqn:E;
    [|discriminate].
  rewrite (IH fuel' next err' tr0 E) by lia. exact Htr.
Qed.

(** The horizontal line from (0,0) to (10,0): eleven points on row 0. *)
Lemma horizontal_trace :
  beelineTrace 11 (mkPoint 0 0) (mkPoint 10 0) 10 0 10 1 (-1)
  = Some ((fun x => mkPoint x 0) <$> seqZ 0 11).
Proof. vm_compute. reflexivity. Qed.

Lemma horizontal_stroke (x y : Z) :
  (x, y) ∈ (((fun x => mkPoint x 0) <$> seqZ 0 11) ≫= stampPoints)
  <-> y = 0 /\ -2 <= x <= 12.
Proof.
  rewrite list_elem_of_bind. split.
  - intros (p & Hin & Hp). apply list_elem_of_fmap in Hp as (x0 & -> & Hx0).
    apply elem_of_seqZ in Hx0. unfold stampPoints in Hin. cbn [X Y] in Hin.
    unfold GoInt.add, GoInt.sub in Hin.
    rewrite !wrap_small in Hin
      by (unfold GoInt.in_range, GoInt.min_int, GoInt.max_int; lia).
    rewrite !elem_of_cons, elem_of_nil in Hin.
    destruct Hin as [H|[H|[H|[H|[H|[]]]]]]; inversion H; lia.
  - intros [-> Hx].
    assert (Hx0 : exists x0, 0 <= x0 < 11
              /\ (x = x0 \/ x = x0 + 1 \/ x = x0 - 1 \/ x = x0 + 2 \/ x = x0 - 2)).
    { exists (Z.max 0 (Z.min 10 x)). lia. }
    destruct Hx0 as (x0 & Hr & Hc).
    exists (mkPoint x0 0). split.
    + unfold stampPoints. cbn [X Y]. unfold GoInt.add, GoInt.sub.
      rewrite !wrap_small by (unfold GoInt.in_range, GoInt.min_int, GoInt.max_int; lia).
      rewrite !elem_of_cons.
      destruct Hc as [->|[->|[->|[->| ->]]]];
        [ left | right; left | do 2 right; left | do 3 right; left | do 4 right; left ];
        f_equal; lia.
    + apply list_elem_of_fmap. exists x0. split; [reflexivity|].
      apply elem_of_seqZ. lia.
Qed.

(** C3 (amended) — [drawBeeline] from (0,0) to (10,0) paints exactly the
    pixels of row 0 whose x lies in [[-2, 12]], clipped to the bounds: the
    stroke is widened along x only, so a horizontal line is one pixel high
    and reaches two pixels beyond each end.  Every other pixel, the rows
    1 and 2 included, keeps its colour. *)
Theorem drawBeeline_horizontal (captcha : CaptchaImage) (lineColor : RGBA) (fuel : nat) :
  Error captcha = None ->
  (11 <= fuel)%nat ->
  exists m,
    drawBeeline fuel captcha (mkPoint 0 0) (mkPoint 10 0) lineColor
      = Ret (withPixels captcha m)
    /\ forall x y,
         NRGBA_At m x y =
         if inBounds (Bounds (nrgba captcha)) x y
            && (y =? 0) && (-2 <=? x) && (x <=? 12)
         then nrgbaModel lineColor
         else NRGBA_At (nrgba captcha) x y.
Proof.
  intros He Hfuel. unfold drawBeeline. rewrite He.
  cbn [X Y]. 
  change (IntFloat.abs (IntFloat.of_int (GoInt.sub 0 10))) with 10.
  change (IntFloat.abs (IntFloat.of_int (GoInt.sub 0 0))) with 0.
  change (IntFloat.sub 10 0) with 10.
  change (if 0 >=? 10 then -1 else 1) with 1.
  change (if 0 >=? 0 then -1 else 1) with (-1).
  rewrite beelineLoop_trace.
  rewrite (beelineTrace_more_fuel 11 fuel _ _ _ _ _ _ _ _ horizontal_trace Hfuel).
  eexists. split; [reflexivity|]. intros x y. rewrite At_paint.
  destruct (inBounds (Bounds (nrgba captcha)) x y); [|reflexivity]. simpl.
  case_bool_decide as Hin; rewrite horizontal_stroke in Hin.
  - destruct Hin as [-> [H1 H2]].
    apply Z.leb_le in H1, H2. now rewrite H1, H2.
  - destruct (Z.eqb_spec y 0), (Z.leb_spec (-2) x), (Z.leb_spec x 12);
      simpl; try reflexivity. lia.
Qed.

(** While the decision variable stays within one and a half times the
    larger extent, and the extents within [2^52], each [float64] operation
    of a step is exact. *)
Lemma beelineStep_exact (x y dx dy err sx sy : Z) :
  0 <= dx <= 2 ^ 52 -> 0 <= dy <= 2 ^ 52 ->
  - 3 * dy <= 2 * err <= 3 * dx ->
  beelineStep (mkPoint x y) dx dy err sx sy =
  (err - (if 2 * err >? - dy then dy else 0) + (if 2 * err <? dx then dx else 0),
   mkPoint (if 2 * err >? - dy then GoInt.add x sx else x)
           (if 2 * err <? dx then GoInt.add y sy else y)).
Proof.
  intros Hdx Hdy Herr. unfold beelineStep, IntFloat.mul, IntFloat.sub, IntFloat.add,
    IntFloat.opp. cbn [X Y].
  rewrite rne_double by lia. replace (err * 2) with (2 * err) by lia.
  destruct (Z.gtb_spec (2 * err) (- dy)), (Z.ltb_spec (2 * err) dx);
    rewrite ?rne_exact by (rewrite ?rne_exact by lia; lia);
    repeat f_equal; lia.
Qed.

Lemma beelineTrace_S fuel point1 point2 dx dy err sx sy :
  beelineTrace (S fuel) point1 point2 dx dy err sx sy =
  if (X point1 =? X point2) && (Y point1 =? Y point2) then Some [point1]
  else
    let '(err, next) := beelineStep point1 dx dy err sx sy in
    cons point1 <$> beelineTrace fuel next point2 dx dy err sx sy.
Proof. reflexivity. Qed.

Lemma beelineTrace_converges (n : nat) :
  forall x y err x2 y2 dx dy sx sy rx ry,
    (sx = 1 \/ sx = -1) -> (sy = 1 \/ sy = -1) ->
    GoInt.in_range x -> GoInt.in_range y -> GoInt.in_range x2 -> GoInt.in_range y2 ->
    0 <= rx <= dx -> 0 <= ry <= dy -> dx <= 2 ^ 52 -> dy <= 2 ^ 52 ->
    x2 = x + sx * rx -> y2 = y + sy * ry ->
    err = dx - dy + rx * dy - ry * dx ->
    - 3 * dy <= 2 * err <= 3 * dx ->
    (Z.to_nat (rx + ry) <= n)%nat ->
    exists tr,
      beelineTrace (S n) (mkPoint x y) (mkPoint x2 y2) dx dy err sx sy = Some tr.
Proof.
  induction n as [|n IH];
    intros x y err x2 y2 dx dy sx sy rx ry Hsx Hsy Rx Ry Rx2 Ry2 Hrx Hry Hdx Hdy
           Hx2 Hy2 Herr Hb Hn;
    rewrite beelineTrace_S; cbn [X Y].
  - assert (rx = 0 /\ ry = 0) as [-> ->] by lia.
    rewrite Z.mul_0_r, Z.add_0_r in Hx2, Hy2. subst x2 y2.
    rewrite !Z.eqb_refl. eexists; reflexivity.
  - destruct (Z.eqb_spec x x2) as [Ex|Ex], (Z.eqb_spec y y2) as [Ey|Ey];
      cbn [andb]; try (eexists; reflexivity).
    all: rewrite beelineStep_exact by lia.
    all: assert (Px : 0 <= rx * dy) by (apply Z.mul_nonneg_nonneg; lia).
    all: assert (Py : 0 <= ry * dx) by (apply Z.mul_nonneg_nonneg; lia).
    + (* x has arrived, y has not: only y may step *)
      assert (rx = 0) by (destruct Hsx; subst sx; lia). subst rx.
      assert (1 <= ry) by (destruct Hsy; subst sy; lia).
      assert (0 <= (ry - 1) * dx) by (apply Z.mul_nonneg_nonneg; lia).
      destruct (Z.gtb_spec (2 * err) (- dy)); [lia|].
      destruct (Z.ltb_spec (2 * err) dx); [|lia]. cbv beta iota.
      destruct (IH x (GoInt.add y sy) (err - 0 + dx) x2 y2 dx dy sx sy 0 (ry - 1))
        as [tr Htr]; try assumption; try lia.
      * apply wrap_in_range.
      * unfold GoInt.add. rewrite wrap_small; [lia|].
        unfold GoInt.in_range, GoInt.min_int, GoInt.max_int in *.
        destruct Hsy; subst sy; lia.
      * rewrite Htr. eexists; reflexivity.
    + (* y has arrived, x has not: only x may step *)
      assert (ry = 0) by (destruct Hsy; subst sy; lia). subst ry.
      assert (1 <= rx) by (destruct Hsx; subst sx; lia).
      assert (0 <= (rx - 1) * dy) by (apply Z.mul_nonneg_nonneg; lia).
      destruct (Z.ltb_spec (2 * err) dx); [lia|].
      destruct (Z.gtb_spec (2 * err) (- dy)); [|lia]. cbv beta iota.
      destruct (IH (GoInt.add x sx) y (err - dy + 0) x2 y2 dx dy sx sy (rx - 1) 0)
        as [tr Htr]; try assumption; try lia.
      * apply wrap_in_range.
      * unfold GoInt.add. rewrite wrap_small; [lia|].
        unfold GoInt.in_range, GoInt.min_int, GoInt.max_int in *.
        destruct Hsx; subst sx; lia.
      * rewrite Htr. eexists; reflexivity.
    + (* neither has arrived *)
      assert (1 <= rx) by (destruct Hsx; subst sx; lia).
      assert (1 <= ry) by (destruct Hsy; subst sy; lia).
      assert (Wx : GoInt.add x sx = x + sx).
      { unfold GoInt.add. rewrite wrap_small; [lia|].
        unfold GoInt.in_range, GoInt.min_int, GoInt.max_int in *.
        destruct Hsx; subst sx; lia. }
      assert (Wy : GoInt.add y sy = y + sy).
      { unfold GoInt.add. rewrite wrap_small; [lia|].
        unfold GoInt.in_range, GoInt.min_int, GoInt.max_int in *.
        destruct Hsy; subst sy; lia. }
      destruct (Z.gtb_spec (2 * err) (- dy)), (Z.ltb_spec (2 * err) dx);
        cbv beta iota.
      * destruct (IH (GoInt.add x sx) (GoInt.add y sy) (err - dy + dx) x2 y2 dx dy sx sy
                     (rx - 1) (ry - 1)) as [tr Htr];
          try assumption; try apply wrap_in_range; try lia.
        rewrite Htr. eexists; reflexivity.
      * destruct (IH (GoInt.add x sx) y (err - dy + 0) x2 y2 dx dy sx sy (rx - 1) ry)
          as [tr Htr]; try assumption; try apply wrap_in_range; try lia.
        rewrite Htr. eexists; reflexivity.
      * destruct (IH x (GoInt.add y sy) (err - 0 + dx) x2 y2 dx dy sx sy rx (ry - 1))
          as [tr Htr]; try assumption; try apply wrap_in_range; try lia.
        rewrite Htr. eexists; reflexivity.
      * lia.
Qed.

(** C9 (amended) — [drawBeeline] terminates for all endpoints that are
    values of [int] and whose coordinates differ by at most [2^52], in any
    relative position (equal points, horizontal and vertical lines
    included): the loop reaches [point1 = point2] within
    [|dx| + |dy| + 1] iterations, and more fuel does not change the
    result. *)
Theorem drawBeeline_terminates (captcha : CaptchaImage) (point1 point2 : Point)
    (lineColor : RGBA) :
  GoInt.in_range (X point1) -> GoInt.in_range (Y point1) ->
  GoInt.in_range (X point2) -> GoInt.in_range (Y point2) ->
  Z.abs (X point1 - X point2) <= 2 ^ 52 ->
  Z.abs (Y point1 - Y point2) <= 2 ^ 52 ->
  exists captcha',
    forall fuel : nat,
      (Z.to_nat (Z.abs (X point1 - X point2) + Z.abs (Y point1 - Y point2)) < fuel)%nat ->
      drawBeeline fuel captcha point1 point2 lineColor = Ret captcha'.
Proof.
  intros Rx1 Ry1 Rx2 Ry2 Hdx Hdy. unfold drawBeeline.
  destruct (Error captcha) as [e|]; [exists captcha; reflexivity|].
  destruct point1 as [x1 y1], point2 as [x2 y2]. cbn [X Y] in *.
  set (dx := Z.abs (x1 - x2)) in *. set (dy := Z.abs (y1 - y2)) in *.
  assert (Edx : IntFloat.abs (IntFloat.of_int (GoInt.sub x1 x2)) = dx).
  { unfold IntFloat.abs, IntFloat.of_int, GoInt.sub.
    rewrite wrap_small
      by (unfold GoInt.in_range, GoInt.min_int, GoInt.max_int in *; lia).
    rewrite rne_exact by lia. reflexivity. }
  assert (Edy : IntFloat.abs (IntFloat.of_int (GoInt.sub y2 y1)) = dy).
  { unfold IntFloat.abs, IntFloat.of_int, GoInt.sub.
    rewrite wrap_small
      by (unfold GoInt.in_range, GoInt.min_int, GoInt.max_int in *; lia).
    rewrite rne_exact by lia. unfold dy. lia. }
  rewrite Edx, Edy.
  assert (Eerr : IntFloat.sub dx dy = dx - dy).
  { unfold IntFloat.sub. apply rne_exact. lia. }
  rewrite Eerr.
  set (sx := if x1 >=? x2 then -1 else 1).
  set (sy := if y1 >=? y2 then -1 else 1).
  destruct (beelineTrace_converges (Z.to_nat (dx + dy)) x1 y1 (dx - dy) x2 y2 dx dy sx sy dx dy)
    as [tr Htr]; try assumption; try lia.
  - unfold sx. destruct (x1 >=? x2); [now right | now left].
  - unfold sy. destruct (y1 >=? y2); [now right | now left].
  - unfold sx, dx. destruct (Z.geb_spec x1 x2); lia.
  - unfold sy, dy. destruct (Z.geb_spec y1 y2); lia.
  - exists (withPixels captcha (paint lineColor (tr ≫= stampPoints) (nrgba captcha))).
    intros fuel Hfuel. rewrite beelineLoop_trace.
    rewrite (beelineTrace_more_fuel _ fuel _ _ _ _ _ _ _ _ Htr) by lia.
    reflexivity.
Qed.

(** Past the exact range of [float64] the decision variable can stop
    moving.  From (0, y) towards (1, 2^54) it equals [-2^54], adding
    [dx = 1] rounds back to [-2^54], and only y is ever stepped. *)
Lemma beelineLoop_stuck (fuel : nat) :
  forall (m : NRGBA) (y : Z) (c : RGBA),
    beelineLoop fuel m (mkPoint 0 y) (mkPoint 1 (2 ^ 54)) 1 (2 ^ 54) (- 2 ^ 54) 1 1 c
    = OutOfFuel.
Proof.
  induction fuel as [|fuel IH]; intros m y c; [reflexivity|].
  cbn [beelineLoop X Y]. change (0 =? 1) with false. cbn [andb].
  unfold beelineStep. cbn [X Y].
  replace (IntFloat.mul (- 2 ^ 54) 2) with (- 2 ^ 55) by (vm_compute; reflexivity).
  change (- 2 ^ 55 >? IntFloat.opp (2 ^ 54)) with false.
  change (- 2 ^ 55 <? 1) with true. cbv iota.
  replace (IntFloat.add (- 2 ^ 54) 1) with (- 2 ^ 54) by (vm_compute; reflexivity).
  apply IH.
Qed.

(** ** The sine curve *)

Lemma sinePlot_paint (captcha : CaptchaImage) (p : SineParams) :
  sinePlot captcha p =
  paint (sine_c p)
        (if F64.neq (sine_w p) 0 then seqZ 0 (sine_px2 p) ≫= sineRun captcha p else [])
        (nrgba captcha).
Proof.
  unfold sinePlot. generalize (nrgba captcha) as m.
  generalize (seqZ 0 (sine_px2 p)) as cols.
  destruct (F64.neq (sine_w p) 0).
  - induction cols as [|px cols IH]; intros m; [reflexivity|].
    cbn [fold_left].
    change ((px :: cols) ≫= sineRun captcha p)
      with (sineRun captcha p px ++ (cols ≫= sineRun captcha p)).
    rewrite paint_app. apply IH.
  - induction cols as [|px cols IH]; intros m; [reflexivity|]. apply IH.
Qed.

Lemma sineStroke_elem (captcha : CaptchaImage) (p : SineParams) (x y : Z) :
  (x, y) ∈ (if F64.neq (sine_w p) 0
            then seqZ 0 (sine_px2 p) ≫= sineRun captcha p else [])
  <-> sineStroke captcha p x y.
Proof.
  unfold sineStroke. destruct (F64.neq (sine_w p) 0).
  - rewrite list_elem_of_bind. split.
    + intros (px & Hin & Hpx). apply elem_of_seqZ in Hpx.
      unfold sineRun in Hin. apply list_elem_of_fmap in Hin as (i & Heq & Hi).
      apply elem_of_reverse, elem_of_seqZ in Hi. inversion Heq; subst.
      split; [reflexivity|]. exists px, i. repeat split; lia.
    + intros (_ & px & i & Hpx & Hi & -> & ->). exists px. split.
      * unfold sineRun. apply list_elem_of_fmap. exists i. split; [reflexivity|].
        apply elem_of_reverse, elem_of_seqZ. lia.
      * apply elem_of_seqZ. lia.
  - rewrite elem_of_nil. split; [intros [] | intros [H _]; discriminate].
Qed.

(** C8 (amended) — On a canvas without a stored error, once its random
    values are drawn, [DrawSineLine] paints for every column [px] of its
    extent [[0, px2)] a horizontal run of [height/5] pixels, the columns
    [px+1 .. px+height/5] of the row the curve has above [px], all in the
    one colour drawn for the curve; pixels outside these runs, and all
    pixels when the angular frequency is 0, keep their colour. *)
Theorem DrawSineLine_runs (captcha : CaptchaImage) (g g' : Globals) (p : SineParams) :
  Error captcha = None ->
  sineParams captcha g = Ret (p, g') ->
  exists m,
    DrawSineLine captcha g = Ret (withPixels captcha m, g')
    /\ (forall x y, inBounds (Bounds (nrgba captcha)) x y = true ->
                    sineStroke captcha p x y ->
                    NRGBA_At m x y = nrgbaModel (sine_c p))
    /\ (forall x y, ~ sineStroke captcha p x y ->
                    NRGBA_At m x y = NRGBA_At (nrgba captcha) x y).
Proof.
  intros He Hp. exists (sinePlot captcha p). split.
  - unfold DrawSineLine, bind. rewrite He, Hp. reflexivity.
  - rewrite sinePlot_paint. split; intros x y.
    + intros Hin Hs. rewrite At_paint, Hin.
      rewrite bool_decide_eq_true_2; [reflexivity|]. now apply sineStroke_elem.
    + intros Hs. rewrite At_paint.
      rewrite bool_decide_eq_false_2; [now rewrite andb_false_r|].
      now rewrite sineStroke_elem.
Qed.

(** * The rest of the package *)

(** ** Loops *)

(** A loop whose body returns while an invariant holds returns, and keeps
    the invariant. *)
Lemma forM_invariant {T S : Type} (I : S -> Globals -> Prop) (xs : list T)
    (body : T -> S -> M S) :
  (forall x s g, x ∈ xs -> I s g -> exists s' g', body x s g = Ret (s', g') /\ I s' g') ->
  forall s g, I s g -> exists s' g', forM xs body s g = Ret (s', g') /\ I s' g'.
Proof.
  induction xs as [|x xs IH]; intros Hbody s g Hs.
  - exists s, g. split; [reflexivity | exact Hs].
  - destruct (Hbody x s g) as (s1 & g1 & E1 & H1); [apply elem_of_cons; now left | exact Hs |].
    destruct IH with (s := s1) (g := g1) as (s2 & g2 & E2 & H2); [|exact H1|].
    + intros y s' g' Hy. apply Hbody. apply elem_of_cons. now right.
    + exists s2, g2. split; [|exact H2].
      cbn [forM]. unfold bind. rewrite E1. exact E2.
Qed.

(** The same for a loop that may leave the function: [J] is what holds of
    the result, whether the loop ran to its end or returned early. *)
Lemma forReturn_invariant {T S : Type} (I J : S -> Globals -> Prop) (xs : list T)
    (body : T -> S -> M (S + S)) :
  (forall s g, I s g -> J s g) ->
  (forall x s g, x ∈ xs -> I s g ->
     exists r g', body x s g = Ret (r, g')
                  /\ match r with inl s' => I s' g' | inr s' => J s' g' end) ->
  forall s g, I s g -> exists s' g', forReturn xs body s g = Ret (s', g') /\ J s' g'.
Proof.
  intros HIJ. induction xs as [|x xs IH]; intros Hbody s g Hs.
  - exists s, g. split; [reflexivity | now apply HIJ].
  - destruct (Hbody x s g) as (r & g1 & E1 & H1); [apply elem_of_cons; now left | exact Hs |].
    destruct r as [s1|s1].
    + destruct IH with (s := s1) (g := g1) as (s2 & g2 & E2 & H2); [|exact H1|].
      * intros y s' g' Hy. apply Hbody. apply elem_of_cons. now right.
      * exists s2, g2. split; [|exact H2].
        cbn [forReturn]. unfold bind. rewrite E1. exact E2.
    + exists s1, g1. split; [|exact H1].
      cbn [forReturn]. unfold bind. rewrite E1. reflexivity.
Qed.

Lemma in_range_small z : - 2 ^ 62 <= z <= 2 ^ 62 -> GoInt.in_range z.
Proof. unfold GoInt.in_range, GoInt.min_int, GoInt.max_int. lia. Qed.

Lemma bind_Ret {T U : Type} (m : M T) (k : T -> M U) (g g' : Globals) (t : T) :
  m g = Ret (t, g') -> bind m k g = k t g'.
Proof. intros E. unfold bind. now rewrite E. Qed.

Lemma bind_Panic {T U : Type} (m : M T) (k : T -> M U) (g : Globals) (msg : string) :
  m g = Panic msg -> bind m k g = Panic msg.
Proof. intros E. unfold bind. now rewrite E. Qed.

Lemma Intn_panics (n : Z) (g : Globals) :
  n <= 0 -> Intn n g = Panic "invalid argument to Intn".
Proof. intros Hn. unfold Intn. destruct (Z.leb_spec n 0); [reflexivity | lia]. Qed.

(** Truncated division of an [int] by a small positive constant. *)
Lemma quot_small (a b : Z) :
  GoInt.in_range a -> 0 < b -> GoInt.quot a b = Z.quot a b.
Proof.
  intros Ha Hb. unfold GoInt.quot. apply wrap_small.
  unfold GoInt.in_range, GoInt.min_int, GoInt.max_int in *.
  destruct (Z.le_gt_cases 0 a) as [H|H].
  - pose proof (Z.quot_pos a b H Hb). pose proof (Z.quot_le_upper_bound a b a Hb).
    assert (a <= b * a) by nia. lia.
  - pose proof (Z.quot_opp_l a b ltac:(lia)) as Ho.
    pose proof (Z.quot_pos (- a) b ltac:(lia) Hb).
    pose proof (Z.quot_le_upper_bound (- a) b (- a) Hb).
    assert (- a <= b * - a) by nia. lia.
Qed.

Lemma quot_nonpos (a b : Z) :
  GoInt.min_int <= a < b -> 0 < b <= 20 -> GoInt.quot a b <= 0.
Proof.
  intros Ha [Hb Hb'].
  rewrite quot_small by (unfold GoInt.in_range, GoInt.min_int, GoInt.max_int in *; lia).
  destruct (Z.le_gt_cases 0 a) as [H|H].
  - rewrite Z.quot_small; lia.
  - pose proof (Z.quot_opp_l a b ltac:(lia)).
    pose proof (Z.quot_pos (- a) b ltac:(lia) Hb). lia.
Qed.

Lemma quot_pos_ge (a b : Z) : b <= a <= GoInt.max_int -> 0 < b -> 1 <= GoInt.quot a b <= a.
Proof.
  intros Ha Hb.
  rewrite quot_small by (unfold GoInt.in_range, GoInt.min_int, GoInt.max_int in *; lia).
  rewrite Z.quot_div_nonneg by lia.
  pose proof (Z.div_le_lower_bound a b 1 Hb ltac:(lia)).
  pose proof (Z.div_le_upper_bound a b a Hb ltac:(nia)). lia.
Qed.

(** The colour generators return, and leave the registry alone. *)
Lemma randColor_returns (g : Globals) :
  exists c g', randColor g = Ret (c, g') /\ A c = 255 /\ fontFamily g' = fontFamily g.
Proof.
  unfold randColor.
  destruct (Intn_range 255 g ltac:(lia)) as (red & g1 & E1 & _ & F1 & _).
  destruct (Intn_range 255 g1 ltac:(lia)) as (green & g2 & E2 & _ & F2 & _).
  destruct (Intn_range 255 g2 ltac:(lia)) as (blue & g3 & E3 & _ & F3 & _).
  rewrite (bind_Ret _ _ _ _ _ E1), (bind_Ret _ _ _ _ _ E2), (bind_Ret _ _ _ _ _ E3).
  eexists _, _. split; [reflexivity|]. split; [reflexivity | congruence].
Qed.

Lemma randDeepColor_returns (g : Globals) :
  exists c g', randDeepColor g = Ret (c, g') /\ A c = 255 /\ fontFamily g' = fontFamily g.
Proof.
  unfold randDeepColor.
  destruct (randColor_returns g) as (c & g1 & E1 & _ & F1).
  destruct (Intn_range 255 g1 ltac:(lia)) as (k & g2 & E2 & _ & F2 & _).
  rewrite (bind_Ret _ _ _ _ _ E1), (bind_Ret _ _ _ _ _ E2).
  eexists _, _. split; [reflexivity|]. split; [reflexivity | congruence].
Qed.

Lemma RandLightColor_returns (g : Globals) :
  exists c g', RandLightColor g = Ret (c, g') /\ fontFamily g' = fontFamily g.
Proof.
  unfold RandLightColor.
  destruct (Intn_range 55 g ltac:(lia)) as (red & g1 & E1 & _ & F1 & _).
  destruct (Intn_range 55 g1 ltac:(lia)) as (green & g2 & E2 & _ & F2 & _).
  destruct (Intn_range 55 g2 ltac:(lia)) as (blue & g3 & E3 & _ & F3 & _).
  rewrite (bind_Ret _ _ _ _ _ E1), (bind_Ret _ _ _ _ _ E2), (bind_Ret _ _ _ _ _ E3).
  eexists _, _. split; [reflexivity | congruence].
Qed.

(** An opaque colour is stored opaque. *)
Lemma nrgbaModel_alpha (c : RGBA) : A c = 255 -> A (nrgbaModel c) = 255.
Proof.
  intros Ha. unfold nrgbaModel. rewrite Ha.
  change (Z.lor 255 (Z.shiftl 255 8) =? 65535) with true. reflexivity.
Qed.

(** ** Construction *)

(** An 8-bit channel survives the widening to 16 bits and back. *)
Lemma widen_narrow v :
  0 <= v <= 255 -> uint8 (Z.shiftr (Z.lor v (Z.shiftl v 8)) 8) = v.
Proof.
  intros Hv. rewrite Z.shiftr_lor, Z.shiftr_shiftl_l by lia.
  rewrite Z.shiftr_div_pow2 by lia. rewrite Z.div_small by lia.
  change (8 - 8) with 0. rewrite Z.shiftl_0_r, Z.lor_0_l. now apply uint8_small.
Qed.

(** An opaque colour is stored as it is. *)
Lemma nrgbaModel_opaque (c : RGBA) :
  0 <= R c <= 255 -> 0 <= G c <= 255 -> 0 <= B c <= 255 -> A c = 255 ->
  nrgbaModel c = c.
Proof.
  destruct c as [r g b a]. cbn [R G B A]. intros Hr Hg Hb ->.
  unfold nrgbaModel. cbn [R G B A].
  change (Z.lor 255 (Z.shiftl 255 8) =? 65535) with true. cbv iota.
  now rewrite !widen_narrow.
Qed.

Lemma elem_of_rectPoints (r : Rectangle) (x y : Z) :
  (x, y) ∈ rectPoints r <-> inBounds r x y = true.
Proof.
  unfold rectPoints, inBounds. rewrite list_elem_of_bind. split.
  - intros (y0 & Hin & Hy). apply list_elem_of_bind in Hin as (x0 & Hin & Hx).
    apply list_elem_of_singleton in Hin. inversion Hin; subst.
    apply elem_of_seqZ in Hx, Hy.
    rewrite !andb_true_iff, !Z.leb_le, !Z.ltb_lt. lia.
  - rewrite !andb_true_iff, !Z.leb_le, !Z.ltb_lt. intros H.
    exists y. split; [|apply elem_of_seqZ; lia].
    apply list_elem_of_bind. exists x. split; [|apply elem_of_seqZ; lia].
    now apply list_elem_of_singleton.
Qed.

Lemma At_filledNRGBA (r : Rectangle) (bg : RGBA) (x y : Z) :
  inBounds r x y = true -> NRGBA_At (filledNRGBA r bg) x y = nrgbaModel bg.
Proof.
  intros Hin. unfold NRGBA_At, filledNRGBA. cbn [Bounds Pix]. rewrite Hin.
  destruct (list_to_map ((fun p => (p, nrgbaModel bg)) <$> rectPoints r) !! (x, y))
    as [v|] eqn:E.
  - apply elem_of_list_to_map_2 in E.
    apply list_elem_of_fmap in E as (p & Heq & _). now inversion Heq.
  - apply not_elem_of_list_to_map_2 in E. exfalso. apply E.
    apply list_elem_of_fmap. exists ((x, y), nrgbaModel bg). split; [reflexivity|].
    apply list_elem_of_fmap. exists (x, y). split; [reflexivity|].
    now apply elem_of_rectPoints.
Qed.

(** X1 — A canvas made by [New] (or [NewCaptchaImage]) has the width and
    height it was asked for, no stored error, and the background colour at
    every coordinate [0 <= x < width], [0 <= y < height]: an opaque
    background is read back exactly as it was given. *)
Theorem New_background (w h : Z) (bgColor : RGBA) (x y : Z) :
  0 <= x < w -> 0 <= y < h ->
  0 <= R bgColor <= 255 -> 0 <= G bgColor <= 255 -> 0 <= B bgColor <= 255 ->
  A bgColor = 255 ->
  NRGBA_At (nrgba (New w h bgColor)) x y = bgColor
  /\ NRGBA_At (nrgba (NewCaptchaImage w h bgColor)) x y = bgColor
  /\ width (New w h bgColor) = w /\ height (New w h bgColor) = h
  /\ Error (New w h bgColor) = None.
Proof.
  intros Hx Hy Hr Hg Hb Ha.
  assert (E : NRGBA_At (nrgba (New w h bgColor)) x y = bgColor).
  { unfold New. cbn [nrgba]. rewrite At_filledNRGBA.
    - now apply nrgbaModel_opaque.
    - unfold Rect. destruct (Z.ltb_spec w 0); [lia|]. destruct (Z.ltb_spec h 0); [lia|].
      unfold inBounds. cbn [MinX MinY MaxX MaxY].
      rewrite !andb_true_iff, !Z.leb_le, !Z.ltb_lt. lia. }
  repeat split; exact E.
Qed.

(** ** The border *)

(** X2 — On a canvas without a stored error [DrawBorder] paints the frame
    and nothing else: inside the bounds, a pixel of row 0 or row
    [height - 1] over the columns [[0, width)], or of column 0 or column
    [width - 1] over the rows [[0, height)], takes the border colour, and
    every other pixel keeps its colour; no random value is drawn. *)
Theorem DrawBorder_frame (captcha : CaptchaImage) (borderColor : RGBA) (g : Globals) :
  Error captcha = None ->
  GoInt.min_int < width captcha <= GoInt.max_int ->
  GoInt.min_int < height captcha <= GoInt.max_int ->
  exists m,
    DrawBorder captcha borderColor g = Ret (withPixels captcha m, g)
    /\ (forall x y, inBounds (Bounds (nrgba captcha)) x y = true ->
                    onFrame captcha x y ->
                    NRGBA_At m x y = nrgbaModel borderColor)
    /\ (forall x y, ~ onFrame captcha x y ->
                    NRGBA_At m x y = NRGBA_At (nrgba captcha) x y).
Proof.
  intros He Hw Hh. unfold DrawBorder. rewrite He.
  eexists. split; [reflexivity|].
  assert (Ew : GoInt.sub (width captcha) 1 = width captcha - 1).
  { apply wrap_small. unfold GoInt.in_range, GoInt.min_int, GoInt.max_int in *. lia. }
  assert (Eh : GoInt.sub (height captcha) 1 = height captcha - 1).
  { apply wrap_small. unfold GoInt.in_range, GoInt.min_int, GoInt.max_int in *. lia. }
  rewrite Ew, Eh.
  assert (Hrows : forall x y,
            (x, y) ∈ (x0 ← seqZ 0 (width captcha); [(x0, 0); (x0, height captcha - 1)])
            <-> 0 <= x < width captcha /\ (y = 0 \/ y = height captcha - 1)).
  { intros x y. rewrite list_elem_of_bind. split.
    - intros (x0 & Hin & Hx0). apply elem_of_seqZ in Hx0.
      rewrite !elem_of_cons, elem_of_nil in Hin.
      destruct Hin as [H|[H|[]]]; inversion H; subst; lia.
    - intros [Hx Hy]. exists x. split; [|apply elem_of_seqZ; lia].
      rewrite !elem_of_cons. destruct Hy as [-> | ->]; [now left | right; now left]. }
  assert (Hcols : forall x y,
            (x, y) ∈ (y0 ← seqZ 0 (height captcha); [(0, y0); (width captcha - 1, y0)])
            <-> 0 <= y < height captcha /\ (x = 0 \/ x = width captcha - 1)).
  { intros x y. rewrite list_elem_of_bind. split.
    - intros (y0 & Hin & Hy0). apply elem_of_seqZ in Hy0.
      rewrite !elem_of_cons, elem_of_nil in Hin.
      destruct Hin as [H|[H|[]]]; inversion H; subst; lia.
    - intros [Hy Hx]. exists y. split; [|apply elem_of_seqZ; lia].
      rewrite !elem_of_cons. destruct Hx as [-> | ->]; [now left | right; now left]. }
  split; intros x y.
  - intros Hin Hf. rewrite At_paint, Bounds_paint, Hin. cbn [andb].
    case_bool_decide as Hc; [reflexivity|].
    rewrite At_paint, Hin. cbn [andb].
    rewrite bool_decide_eq_true_2; [reflexivity|].
    apply Hrows. destruct Hf as [Hf|Hf]; [exact Hf|].
    exfalso. apply Hc. now apply Hcols.
  - intros Hf. rewrite At_paint, Bounds_paint.
    rewrite bool_decide_eq_false_2, andb_false_r.
    + rewrite At_paint. rewrite bool_decide_eq_false_2, andb_false_r; [reflexivity|].
      intros Hc. apply Hf. left. now apply Hrows.
    + intros Hc. apply Hf. right. now apply Hcols.
Qed.

(** ** Colours and text *)

(** X3 — [RandLightColor] returns for every state of the random source:
    red, green and blue each lie in [[200, 254]], alpha is 255, and every
    triple of that range is returned for some state of the source. *)
Theorem RandLightColor_channels :
  (forall g : Globals,
     exists c g', RandLightColor g = Ret (c, g')
       /\ 200 <= R c <= 254 /\ 200 <= G c <= 254 /\ 200 <= B c <= 254
       /\ A c = 255
       /\ fontFamily g' = fontFamily g)
  /\ (forall red green blue : Z,
        200 <= red <= 254 -> 200 <= green <= 254 -> 200 <= blue <= 254 ->
        exists g g', RandLightColor g = Ret (mkRGBA red green blue 255, g')).
Proof.
  assert (E : forall k, 0 <= k < 55 -> uint8 (GoInt.add k 200) = k + 200).
  { intros k Hk. unfold GoInt.add. rewrite wrap_small by (apply in_range_small; lia).
    apply uint8_small. lia. }
  split.
  - intros g. unfold RandLightColor, bind.
    destruct (Intn_range 55 g ltac:(lia)) as (red & g1 & -> & Hr & F1 & _).
    destruct (Intn_range 55 g1 ltac:(lia)) as (green & g2 & -> & Hg & F2 & _).
    destruct (Intn_range 55 g2 ltac:(lia)) as (blue & g3 & -> & Hb & F3 & _).
    eexists _, _. split; [reflexivity|]. cbn [R G B A].
    rewrite !E by lia. repeat split; try lia. congruence.
  - intros red green blue Hr Hg Hb.
    exists (mkGlobals [red - 200; green - 200; blue - 200] [] 72%float).
    eexists. unfold RandLightColor, bind.
    rewrite (Intn_next 55 (red - 200)) by lia.
    rewrite (Intn_next 55 (green - 200)) by lia.
    rewrite (Intn_next 55 (blue - 200)) by lia.
    unfold ret. rewrite !E by lia.
    repeat f_equal; lia.
Qed.

Lemma length_append (s t : string) :
  String.length (s +:+ t) = (String.length s + String.length t)%nat.
Proof. induction s as [|a s IH]; simpl; [reflexivity | now rewrite IH]. Qed.

Lemma overAlphabet_append (alphabet s t : string) :
  overAlphabet alphabet s -> overAlphabet alphabet t -> overAlphabet alphabet (s +:+ t).
Proof.
  intros Hs Ht i a Hi.
  destruct (Nat.lt_ge_cases i (String.length s)) as [Hlt|Hge].
  - apply (Hs i). now rewrite (String.append_correct1 s t i Hlt).
  - apply (Ht (i - String.length s)%nat).
    rewrite (String.append_correct2 s t).
    replace (i - String.length s + String.length s)%nat with i by lia. exact Hi.
Qed.

Lemma charAt_alphabet (s : string) (k : Z) :
  0 <= k < Z.of_nat (String.length s) ->
  String.length (charAt s k) = 1%nat /\ overAlphabet s (charAt s k).
Proof.
  intros Hk. unfold charAt.
  destruct (String.get (Z.to_nat k) s) as [a|] eqn:E.
  - split; [reflexivity|]. intros i b Hi. destruct i as [|i]; simpl in Hi.
    + inversion Hi; subst. now exists (Z.to_nat k).
    + destruct i; discriminate.
  - exfalso.
    assert (Hlen : (Z.to_nat k < String.length s)%nat) by lia.
    revert E Hlen. generalize (Z.to_nat k) as n. clear Hk.
    induction s as [|c s IH]; intros n E Hn; simpl in *; [lia|].
    destruct n as [|n]; [discriminate|]. apply (IH n E). lia.
Qed.

(** [RandText] returns, whatever the source delivers. *)
Lemma RandText_returns (num : Z) (g : Globals) :
  exists s g', RandText num g = Ret (s, g')
    /\ String.length s = Z.to_nat num
    /\ overAlphabet txtChars s
    /\ fontFamily g' = fontFamily g.
Proof.
  unfold RandText.
  assert (Hgen : forall (xs : list Z) (s : string) (g0 : Globals),
            overAlphabet txtChars s ->
            exists s' g',
              forM xs (fun _ text =>
                         k <- Intn (Z.of_nat (String.length txtChars)) ;;
                         ret (text +:+ charAt txtChars k)) s g0 = Ret (s', g')
              /\ String.length s' = (String.length s + length xs)%nat
              /\ overAlphabet txtChars s'
              /\ fontFamily g' = fontFamily g0).
  { induction xs as [|x xs IH]; intros s g0 Hs.
    - exists s, g0. cbn [forM length]. repeat split; [lia | exact Hs].
    - cbn [forM]. unfold bind at 1. unfold bind at 1.
      destruct (Intn_range (Z.of_nat (String.length txtChars)) g0)
        as (k & g1 & -> & Hk & F1 & _); [simpl; lia|].
      unfold ret at 1.
      destruct (charAt_alphabet txtChars k Hk) as [L1 A1].
      destruct (IH (s +:+ charAt txtChars k) g1) as (s' & g' & -> & L & A' & F).
      { now apply overAlphabet_append. }
      exists s', g'. split; [reflexivity|]. rewrite L, length_append, L1.
      cbn [length]. repeat split; [lia | exact A' | congruence]. }
  destruct (Hgen (seqZ 0 num) EmptyString g) as (s & g' & E & L & Al & F).
  { intros i a Hi. destruct i; discriminate. }
  exists s, g'. split; [exact E|]. split; [|split; assumption].
  rewrite L, length_seqZ. simpl. lia.
Qed.

(** X4 — [RandText(num)] returns a text of exactly [num] bytes ([""] when
    [num] is zero or negative), each of them one of the 62 letters and
    digits of [txtChars]. *)
Theorem RandText_length_alphabet (num : Z) (g : Globals) :
  exists s g', RandText num g = Ret (s, g')
    /\ Z.of_nat (String.length s) = Z.max 0 num
    /\ overAlphabet txtChars s
    /\ String.length txtChars = 62%nat.
Proof.
  destruct (RandText_returns num g) as (s & g' & E & L & Al & _).
  exists s, g'. split; [exact E|]. split; [lia|]. split; [exact Al | reflexivity].
Qed.

(** ** Fonts *)

Lemma RandFontFamily_picks (g : Globals) :
  fontFamily g <> [] ->
  exists fontFile g',
    RandFontFamily g = Ret (loadFont fontFile, g')
    /\ fontFile ∈ fontFamily g
    /\ fontFamily g' = fontFamily g.
Proof.
  intros Hne. unfold RandFontFamily.
  rewrite (bind_Ret getGlobals _ g g g eq_refl).
  destruct (Intn_range (Z.of_nat (length (fontFamily g))) g) as (k & g1 & E & Hk & F & _).
  { destruct (fontFamily g); [congruence | simpl; lia]. }
  rewrite (bind_Ret _ _ _ _ _ E).
  destruct (lookup_lt_is_Some_2 (fontFamily g) (Z.to_nat k)) as [fontFile Hf]; [lia|].
  rewrite Hf. exists fontFile, g1. split; [|split; [|exact F]].
  - unfold loadFont. destruct (ReadFile fontFile) as [fontBytes [e|]]; [reflexivity|].
    destruct (ParseFont fontBytes) as [f [e|]]; reflexivity.
  - eapply list_elem_of_lookup_2. exact Hf.
Qed.

(** X6 — With at least one registered font file [RandFontFamily] returns
    (it does not panic): it loads one of the registered files, reports no
    error exactly when that file can be read and its content parsed, and
    hands back the empty font beside every error; the registry is left as
    it was. *)
Theorem RandFontFamily_registered (g : Globals) :
  fontFamily g <> [] ->
  exists (fontFile : string) (f : Font) (err : option error) (g' : Globals),
    RandFontFamily g = Ret ((f, err), g')
    /\ fontFile ∈ fontFamily g
    /\ (err = None <->
        snd (ReadFile fontFile) = None
        /\ snd (ParseFont (fst (ReadFile fontFile))) = None)
    /\ (err = None -> f = fst (ParseFont (fst (ReadFile fontFile))))
    /\ (err <> None -> f = emptyFont)
    /\ fontFamily g' = fontFamily g.
Proof.
  intros Hne. destruct (RandFontFamily_picks g Hne) as (fontFile & g' & E & Hin & F).
  exists fontFile, (fst (loadFont fontFile)), (snd (loadFont fontFile)), g'.
  split; [now rewrite <- surjective_pairing|]. split; [exact Hin|].
  unfold loadFont. destruct (ReadFile fontFile) as [fontBytes [e|]]; cbn [fst snd].
  - repeat split; try congruence. intros [H _]. discriminate.
  - destruct (ParseFont fontBytes) as [f [e|]]; cbn [fst snd].
    + repeat split; try congruence. intros [_ H]. discriminate.
    + repeat split; try congruence.
Qed.

(** X7 — When no registered font file can be loaded, [DrawText] on a
    non-empty text stops at the first rune: it returns the canvas with the
    error of the file it tried stored in [Error], and every pixel as it
    was. *)
Theorem DrawText_stores_font_error (captcha : CaptchaImage) (text : string) (g : Globals) :
  Error captcha = None ->
  text <> "" ->
  rangeString text <> [] ->
  fontFamily g <> [] ->
  (forall fontFile, fontFile ∈ fontFamily g -> snd (loadFont fontFile) <> None) ->
  exists (fontFile : string) (e : error) (g' : Globals),
    DrawText captcha text g = Ret (withError captcha e, g')
    /\ fontFile ∈ fontFamily g
    /\ snd (loadFont fontFile) = Some e
    /\ nrgba (withError captcha e) = nrgba captcha.
Proof.
  intros He Ht Hr Hne Hbad. unfold DrawText. rewrite He.
  rewrite (bind_Ret getGlobals _ g g g eq_refl).
  assert (Hdiv : exists q, go_div (width captcha) (Z.of_nat (String.length text)) = Ret q).
  { unfold go_div. destruct text as [|a text]; [congruence|].
    destruct (Z.eqb_spec (Z.of_nat (String.length (String a text))) 0) as [E|E];
      [simpl in E; lia | eexists; reflexivity]. }
  destruct Hdiv as [q Hq]. rewrite Hq.
  rewrite (bind_Ret (lift (Ret q)) _ g g q eq_refl).
  destruct (rangeString text) as [|[i s] rest]; [congruence|].
  cbn [forReturn].
  destruct (Intn_range 7 g ltac:(lia)) as (k & g1 & E1 & _ & F1 & _).
  destruct (randDeepColor_returns g1) as (src & g2 & E2 & _ & F2).
  destruct (RandFontFamily_picks g2) as (fontFile & g3 & E3 & Hin & F3); [congruence|].
  assert (Hin' : fontFile ∈ fontFamily g) by congruence.
  destruct (snd (loadFont fontFile)) as [e|] eqn:Ee; [|now apply Hbad in Hin'].
  exists fontFile, e, g3. split; [|repeat split; assumption].
  rewrite (bind_Ret _ _ g g3 (inr (withError captcha e))); [reflexivity|].
  rewrite (bind_Ret _ _ _ _ _ E1), (bind_Ret _ _ _ _ _ E2), (bind_Ret _ _ _ _ _ E3).
  rewrite Ee. reflexivity.
Qed.

Lemma DrawText_empty_registry (captcha : CaptchaImage) (text : string) (g : Globals) :
  Error captcha = None ->
  text <> "" ->
  rangeString text <> [] ->
  fontFamily g = [] ->
  DrawText captcha text g = Panic "invalid argument to Intn".
Proof.
  intros He Ht Hr Hnil. unfold DrawText. rewrite He.
  rewrite (bind_Ret getGlobals _ g g g eq_refl).
  assert (Hdiv : exists q, go_div (width captcha) (Z.of_nat (String.length text)) = Ret q).
  { unfold go_div. destruct text as [|a text]; [congruence|].
    destruct (Z.eqb_spec (Z.of_nat (String.length (String a text))) 0) as [E|E];
      [simpl in E; lia | eexists; reflexivity]. }
  destruct Hdiv as [q Hq]. rewrite Hq.
  rewrite (bind_Ret (lift (Ret q)) _ g g q eq_refl).
  destruct (rangeString text) as [|[i s] rest]; [congruence|].
  cbn [forReturn].
  destruct (Intn_range 7 g ltac:(lia)) as (k & g1 & E1 & _ & F1 & _).
  destruct (randDeepColor_returns g1) as (src & g2 & E2 & _ & F2).
  apply bind_Panic.
  rewrite (bind_Ret _ _ _ _ _ E1), (bind_Ret _ _ _ _ _ E2).
  apply bind_Panic. unfold RandFontFamily.
  rewrite (bind_Ret getGlobals _ g2 g2 g2 eq_refl).
  apply bind_Panic. apply Intn_panics.
  replace (fontFamily g2) with (@nil string) by congruence. simpl. lia.
Qed.

(** X8 — On a canvas without a stored error, of positive width and height,
    and with at least one registered font file, [DrawTextNoise] returns (it
    does not panic) whatever the random source delivers; the size of the
    canvas is unchanged, and when every registered file loads and the
    rasteriser reports no error the canvas comes back without an error. *)
Theorem DrawTextNoise_returns (captcha : CaptchaImage) (complex : CaptchaComplex)
    (g : Globals) :
  Error captcha = None ->
  0 < width captcha ->
  0 < height captcha ->
  fontFamily g <> [] ->
  exists (captcha' : CaptchaImage) (g' : Globals),
    DrawTextNoise captcha complex g = Ret (captcha', g')
    /\ width captcha' = width captcha
    /\ height captcha' = height captcha
    /\ fontFamily g' = fontFamily g
    /\ ((forall fontFile, fontFile ∈ fontFamily g -> snd (loadFont fontFile) = None) ->
        (forall c m text pt, snd (DrawString c m text pt) = None) ->
        Error captcha' = None).
Proof.
  intros He Hw Hh Hne. unfold DrawTextNoise. rewrite He.
  rewrite (bind_Ret getGlobals _ g g g eq_refl).
  destruct (Intn_range 7 g ltac:(lia)) as (k & g1 & E1 & _ & F1 & _).
  rewrite (bind_Ret _ _ _ _ _ E1).
  set (good := (forall fontFile, fontFile ∈ fontFamily g -> snd (loadFont fontFile) = None)
               /\ (forall c m text pt, snd (DrawString c m text pt) = None)).
  set (J := fun (c : CaptchaImage) (g0 : Globals) =>
              width c = width captcha /\ height c = height captcha
              /\ fontFamily g0 = fontFamily g).
  set (I := fun (c : CaptchaImage) (g0 : Globals) => J c g0 /\ Error c = None).
  set (K := fun (c : CaptchaImage) (g0 : Globals) => J c g0 /\ (good -> Error c = None)).
  match goal with
  | |- exists _ _, forReturn ?xs ?body captcha g1 = _ /\ _ =>
      destruct (forReturn_invariant I K xs body) with (s := captcha) (g := g1)
        as (c' & g' & E & (Hw' & Hh' & F') & Hgood)
  end.
  - intros c g0 [HJ HE]. split; [exact HJ | intros _; exact HE].
  - intros _ c g0 _ [(Wc & Hc & Fc) Ec].
    destruct (Intn_range (width c) g0 ltac:(lia)) as (rw & g2 & E2 & _ & F2 & _).
    destruct (Intn_range (height c) g2 ltac:(lia)) as (rh & g3 & E3 & _ & F3 & _).
    destruct (RandText_returns 1 g3) as (t & g4 & E4 & _ & _ & F4).
    destruct (Intn_range 5 g4 ltac:(lia)) as (j & g5 & E5 & _ & F5 & _).
    destruct (RandLightColor_returns g5) as (src & g6 & E6 & F6).
    destruct (RandFontFamily_picks g6) as (fontFile & g7 & E7 & Hin & F7); [congruence|].
    assert (Hin' : fontFile ∈ fontFamily g) by congruence.
    assert (Fg : fontFamily g7 = fontFamily g) by congruence.
    rewrite (bind_Ret _ _ _ _ _ E2), (bind_Ret _ _ _ _ _ E3), (bind_Ret _ _ _ _ _ E4),
      (bind_Ret _ _ _ _ _ E5), (bind_Ret _ _ _ _ _ E6), (bind_Ret _ _ _ _ _ E7).
    destruct (snd (loadFont fontFile)) as [e|] eqn:Ee.
    + eexists _, _. split; [reflexivity|]. split; [repeat split; assumption|].
      intros [Hfonts _]. rewrite (Hfonts fontFile Hin') in Ee. discriminate.
    + unfold stamp.
      match goal with
      | |- context [DrawString ?c0 ?m0 ?t0 ?p0] =>
          destruct (DrawString c0 m0 t0 p0) as [m [e|]] eqn:Ed
      end.
      * eexists _, _. split; [reflexivity|]. split; [repeat split; assumption|].
        intros [_ Hdraw].
        match type of Ed with
        | DrawString ?c0 ?m0 ?t0 ?p0 = _ => pose proof (Hdraw c0 m0 t0 p0) as Hd
        end.
        rewrite Ed in Hd. discriminate.
      * eexists _, _. split; [reflexivity|]. split; [repeat split; assumption|].
        exact Ec.
  - repeat split; try reflexivity; assumption.
  - exists c', g'. split; [exact E|]. repeat split; try assumption.
    intros Hfonts Hdraw. apply Hgood. split; assumption.
Qed.

(** ** Text *)

Lemma glyphSizesFrom_spec (n : nat) :
  forall h i, glyphSizesFrom n h = true -> h <= i < h + Z.of_nat n -> glyphSizeOk i = true.
Proof.
  induction n as [|n IH]; intros h i Hc Hi; [lia|].
  cbn [glyphSizesFrom] in Hc. apply andb_true_iff in Hc as [H0 Hc].
  destruct (Z.eq_dec i h) as [-> | Hne]; [exact H0|].
  apply (IH (h + 1)); [exact Hc | lia].
Qed.

Lemma glyphSizes_to_4096 : glyphSizesFrom (Z.to_nat 4095) 2 = true.
Proof. vm_compute. reflexivity. Qed.

(** On a canvas 2 to 4096 pixels high the integer part of every glyph
    size is at least 1. *)
Lemma glyphSize_positive (h k : Z) :
  2 <= h <= 4096 -> 0 <= k < 7 -> F64.to_int (glyphSize h k) <> 0.
Proof.
  intros Hh Hk.
  pose proof (glyphSizesFrom_spec _ 2 h glyphSizes_to_4096 ltac:(lia)) as Hc.
  unfold glyphSizeOk in Hc. rewrite forallb_forall in Hc.
  assert (Hin : In k [0; 1; 2; 3; 4; 5; 6]).
  { assert (Hc' : k = 0 \/ k = 1 \/ k = 2 \/ k = 3 \/ k = 4 \/ k = 5 \/ k = 6) by lia.
    cbn [In]. destruct Hc' as [->|[->|[->|[->|[->|[->| ->]]]]]];
      [ left | right; left | do 2 right; left | do 3 right; left | do 4 right; left
      | do 5 right; left | do 6 right; left ]; reflexivity. }
  specialize (Hc k Hin). apply negb_true_iff, Z.eqb_neq in Hc. exact Hc.
Qed.

(** X19 — On a canvas without a stored error and 2 to 4096 pixels high,
    with a non-empty text and at least one registered font file,
    [DrawText] returns (it does not panic) whatever the random source
    delivers; the size of the canvas is unchanged, and when every
    registered file loads and the rasteriser reports no error the canvas
    comes back without an error. *)
Theorem DrawText_returns (captcha : CaptchaImage) (text : string) (g : Globals) :
  Error captcha = None ->
  text <> "" ->
  2 <= height captcha <= 4096 ->
  fontFamily g <> [] ->
  exists (captcha' : CaptchaImage) (g' : Globals),
    DrawText captcha text g = Ret (captcha', g')
    /\ width captcha' = width captcha
    /\ height captcha' = height captcha
    /\ fontFamily g' = fontFamily g
    /\ ((forall fontFile, fontFile ∈ fontFamily g -> snd (loadFont fontFile) = None) ->
        (forall c m text pt, snd (DrawString c m text pt) = None) ->
        Error captcha' = None).
Proof.
  intros He Ht Hh Hne. unfold DrawText. rewrite He.
  rewrite (bind_Ret getGlobals _ g g g eq_refl).
  assert (Hdiv : exists q, go_div (width captcha) (Z.of_nat (String.length text)) = Ret q).
  { unfold go_div. destruct text as [|a text]; [congruence|].
    destruct (Z.eqb_spec (Z.of_nat (String.length (String a text))) 0) as [E|E];
      [simpl in E; lia | eexists; reflexivity]. }
  destruct Hdiv as [fontWidth Hq]. rewrite Hq.
  rewrite (bind_Ret (lift (Ret fontWidth)) _ g g fontWidth eq_refl).
  set (good := (forall fontFile, fontFile ∈ fontFamily g -> snd (loadFont fontFile) = None)
               /\ (forall c m text pt, snd (DrawString c m text pt) = None)).
  set (J := fun (c : CaptchaImage) (g0 : Globals) =>
              width c = width captcha /\ height c = height captcha
              /\ fontFamily g0 = fontFamily g).
  set (I := fun (c : CaptchaImage) (g0 : Globals) => J c g0 /\ Error c = None).
  set (K := fun (c : CaptchaImage) (g0 : Globals) => J c g0 /\ (good -> Error c = None)).
  match goal with
  | |- exists _ _, forReturn ?xs ?body captcha g = _ /\ _ =>
      destruct (forReturn_invariant I K xs body) with (s := captcha) (g := g)
        as (c' & g' & E & (Hw' & Hh' & F') & Hgood)
  end.
  - intros c g0 [HJ HE]. split; [exact HJ | intros _; exact HE].
  - intros [i s] c g0 _ [(Wc & Hc & Fc) Ec].
    destruct (Intn_range 7 g0 ltac:(lia)) as (k & g1 & E1 & R1 & F1 & _).
    destruct (randDeepColor_returns g1) as (src & g2 & E2 & _ & F2).
    destruct (RandFontFamily_picks g2) as (fontFile & g3 & E3 & Hin & F3); [congruence|].
    assert (Hin' : fontFile ∈ fontFamily g) by congruence.
    assert (Fg3 : fontFamily g3 = fontFamily g) by congruence.
    rewrite (bind_Ret _ _ _ _ _ E1), (bind_Ret _ _ _ _ _ E2), (bind_Ret _ _ _ _ _ E3).
    destruct (snd (loadFont fontFile)) as [e|] eqn:Ee.
    + eexists _, _. split; [reflexivity|]. split; [repeat split; assumption|].
      intros [Hfonts _]. rewrite (Hfonts fontFile Hin') in Ee. discriminate.
    + pose proof (glyphSize_positive (height c) k ltac:(lia) R1) as Hsize.
      unfold glyphSize in Hsize.
      unfold go_div at 1.
      destruct (Z.eqb_spec
                  (F64.to_int (F64.of_int (height c) / (1 + F64.of_int k / F64.of_int 9))%float)
                  0) as [Hz|_]; [contradiction|].
      match goal with
      | |- context [lift (Ret ?q)] => rewrite (bind_Ret (lift (Ret q)) _ g3 g3 q eq_refl)
      end.
      destruct (Intn_range (GoInt.quot (height c) 2) g3) as (j & g4 & E4 & _ & F4 & _).
      { pose proof (quot_pos_ge (height c) 2).
        unfold GoInt.max_int in *. lia. }
      rewrite (bind_Ret _ _ _ _ _ E4).
      assert (Fg : fontFamily g4 = fontFamily g) by congruence.
      unfold stamp.
      match goal with
      | |- context [DrawString ?c0 ?m0 ?t0 ?p0] =>
          destruct (DrawString c0 m0 t0 p0) as [m [e|]] eqn:Ed
      end.
      * eexists _, _. split; [reflexivity|]. split; [repeat split; assumption|].
        intros [_ Hdraw].
        match type of Ed with
        | DrawString ?c0 ?m0 ?t0 ?p0 = _ => pose proof (Hdraw c0 m0 t0 p0) as Hd
        end.
        rewrite Ed in Hd. discriminate.
      * eexists _, _. split; [reflexivity|]. split; [repeat split; assumption|].
        exact Ec.
  - repeat split; try reflexivity; assumption.
  - exists c', g'. split; [exact E|]. repeat split; try assumption.
    intros Hfonts Hdraw. apply Hgood. split; assumption.
Qed.


(** ** Noise *)

(** X9 — On a canvas without a stored error and of positive width and
    height, [DrawNoise] returns (it does not panic) whatever the random
    source delivers and whatever the complexity; the bounds are unchanged,
    no error is stored, and every pixel either keeps its colour or holds an
    opaque colour. *)
Theorem DrawNoise_returns (captcha : CaptchaImage) (complex : CaptchaComplex)
    (g : Globals) :
  Error captcha = None ->
  0 < width captcha ->
  0 < height captcha ->
  exists (m : NRGBA) (g' : Globals),
    DrawNoise captcha complex g = Ret (withPixels captcha m, g')
    /\ Error (withPixels captcha m) = None
    /\ Bounds m = Bounds (nrgba captcha)
    /\ forall x y, NRGBA_At m x y = NRGBA_At (nrgba captcha) x y
                   \/ A (NRGBA_At m x y) = 255.
Proof.
  intros He Hw Hh. unfold DrawNoise. rewrite He.
  set (I := fun (m : NRGBA) (g0 : Globals) =>
              Bounds m = Bounds (nrgba captcha)
              /\ forall x y, NRGBA_At m x y = NRGBA_At (nrgba captcha) x y
                             \/ A (NRGBA_At m x y) = 255).
  assert (Hset : forall m g0 x y c, I m g0 -> A c = 255 -> forall g1, I (NRGBA_Set m x y c) g1).
  { intros m g0 x y c [Hb Hp] Hc g1. split; [now rewrite Bounds_Set|].
    intros x' y'. rewrite At_Set.
    destruct (inBounds (Bounds m) x' y' && bool_decide ((x', y') = (x, y))).
    - right. now apply nrgbaModel_alpha.
    - apply Hp. }
  match goal with
  | |- exists _ _, bind (forM ?xs ?body ?s0) _ g = _ /\ _ =>
      destruct (forM_invariant I xs body) with (s := s0) (g := g)
        as (m & g' & E & Hb & Hp)
  end.
  - intros i m g0 Hi Hm. apply elem_of_seqZ in Hi.
    destruct (Intn_range (width captcha) g0 Hw) as (rw & g1 & E1 & _).
    destruct (Intn_range (height captcha) g1 Hh) as (rh & g2 & E2 & _).
    destruct (randColor_returns g2) as (c1 & g3 & E3 & A1 & _).
    match goal with
    | |- context [Intn ?n] =>
        match n with
        | width captcha => fail 1
        | height captcha => fail 1
        | _ => destruct (Intn_range n g3 ltac:(lia)) as (size & g4 & E4 & _)
        end
    end.
    destruct (randColor_returns g4) as (c2 & g5 & E5 & A2 & _).
    rewrite (bind_Ret _ _ _ _ _ E1), (bind_Ret _ _ _ _ _ E2), (bind_Ret _ _ _ _ _ E3),
      (bind_Ret _ _ _ _ _ E4).
    destruct (GoInt.rem size 3 =? 0).
    + rewrite (bind_Ret _ _ _ _ _ E5). eexists _, _. split; [reflexivity|].
      apply (Hset _ g0); [|exact A2]. now apply (Hset _ g0).
    + eexists _, _. split; [reflexivity|]. now apply (Hset _ g0).
  - split; [reflexivity|]. intros x y. now left.
  - exists m, g'. rewrite (bind_Ret _ _ _ _ _ E).
    split; [reflexivity|]. split; [exact He|]. split; assumption.
Qed.

(** ** Canvases too small for an operation *)

(** X10 — [DrawHollowLine] needs a canvas at least 20 pixels wide: below
    that [width / 20] is not positive and the first [rand.Intn] panics;
    nothing is drawn and no error is recorded on the canvas. *)
Theorem DrawHollowLine_narrow_canvas_panics (fuel : nat) (captcha : CaptchaImage)
    (g : Globals) :
  Error captcha = None ->
  GoInt.min_int <= width captcha < 20 ->
  DrawHollowLine fuel captcha g = Panic "invalid argument to Intn".
Proof.
  intros He Hw. unfold DrawHollowLine. rewrite He.
  apply bind_Panic, Intn_panics.
  rewrite quot_small by (unfold GoInt.in_range, GoInt.min_int, GoInt.max_int in *; lia).
  destruct (Z.le_gt_cases 0 (width captcha)) as [H|H].
  - rewrite Z.quot_small; lia.
  - pose proof (Z.quot_opp_l (width captcha) 20 ltac:(lia)).
    pose proof (Z.quot_pos (- width captcha) 20 ltac:(lia) ltac:(lia)). lia.
Qed.

(** X11 — [DrawSineLine] needs a canvas at least 2 pixels high: below that
    [height / 2] is not positive and the first [rand.Intn] panics, before
    anything is drawn. *)
Theorem DrawSineLine_flat_canvas_panics (captcha : CaptchaImage) (g : Globals) :
  Error captcha = None ->
  GoInt.min_int <= height captcha < 2 ->
  DrawSineLine captcha g = Panic "invalid argument to Intn".
Proof.
  intros He Hh. unfold DrawSineLine. rewrite He.
  apply bind_Panic. unfold sineParams. apply bind_Panic, Intn_panics.
  rewrite quot_small by (unfold GoInt.in_range, GoInt.min_int, GoInt.max_int in *; lia).
  destruct (Z.le_gt_cases 0 (height captcha)) as [H|H].
  - rewrite Z.quot_small; lia.
  - pose proof (Z.quot_opp_l (height captcha) 2 ltac:(lia)).
    pose proof (Z.quot_pos (- height captcha) 2 ltac:(lia) ltac:(lia)). lia.
Qed.

(** X12 — [DrawLine] with at least one line to draw needs a canvas at
    least 10 pixels wide and 3 pixels high: below either, [width / 10] or
    [height / 3] is not positive and drawing the first end point panics. *)
Theorem DrawLine_small_canvas_panics (fuel : nat) (captcha : CaptchaImage) (num : Z)
    (g : Globals) :
  Error captcha = None ->
  0 < num ->
  GoInt.min_int <= width captcha <= GoInt.max_int ->
  GoInt.min_int <= height captcha <= GoInt.max_int ->
  width captcha < 10 \/ height captcha < 3 ->
  DrawLine fuel captcha num g = Panic "invalid argument to Intn".
Proof.
  intros He Hn Hw Hh Hsmall. unfold DrawLine. rewrite He.
  rewrite (seqZ_cons 0 num) by lia. cbn [forM].
  apply bind_Panic.
  destruct (Z.lt_ge_cases (width captcha) 10) as [Hlt|Hge].
  - apply bind_Panic, Intn_panics, quot_nonpos; lia.
  - destruct (Intn_range (GoInt.quot (width captcha) 10) g) as (x1 & g1 & E1 & _).
    { pose proof (quot_pos_ge (width captcha) 10). lia. }
    rewrite (bind_Ret _ _ _ _ _ E1).
    apply bind_Panic, Intn_panics, quot_nonpos; lia.
Qed.


(** ** Lines *)

(** One step of the loop keeps it on its way and brings it nearer. *)
Lemma beelineStep_onTheWay (x2 y2 dx dy sx sy x y err rx ry : Z) :
  (sx = 1 \/ sx = -1) -> (sy = 1 \/ sy = -1) ->
  GoInt.in_range x2 -> GoInt.in_range y2 -> dx <= 2 ^ 52 -> dy <= 2 ^ 52 ->
  onTheWay x2 y2 dx dy sx sy x y err rx ry ->
  (x =? x2) && (y =? y2) = false ->
  exists err' x' y' rx' ry',
    beelineStep (mkPoint x y) dx dy err sx sy = (err', mkPoint x' y')
    /\ onTheWay x2 y2 dx dy sx sy x' y' err' rx' ry'
    /\ rx' <= rx /\ ry' <= ry /\ rx' + ry' < rx + ry.
Proof.
  intros Hsx Hsy Rx2 Ry2 Hdx Hdy (Rx & Ry & Hrx & Hry & Hx2 & Hy2 & Herr & Hb) Hne.
  rewrite beelineStep_exact by lia.
  assert (Px : 0 <= rx * dy) by (apply Z.mul_nonneg_nonneg; lia).
  assert (Py : 0 <= ry * dx) by (apply Z.mul_nonneg_nonneg; lia).
  assert (Wx : 1 <= rx -> GoInt.add x sx = x + sx /\ GoInt.in_range (x + sx)).
  { intros H. assert (R : GoInt.in_range (x + sx)).
    { unfold GoInt.in_range, GoInt.min_int, GoInt.max_int in *.
      destruct Hsx; subst sx; lia. }
    split; [now apply wrap_small | exact R]. }
  assert (Wy : 1 <= ry -> GoInt.add y sy = y + sy /\ GoInt.in_range (y + sy)).
  { intros H. assert (R : GoInt.in_range (y + sy)).
    { unfold GoInt.in_range, GoInt.min_int, GoInt.max_int in *.
      destruct Hsy; subst sy; lia. }
    split; [now apply wrap_small | exact R]. }
  unfold onTheWay.
  destruct (Z.eqb_spec x x2) as [Ex|Ex], (Z.eqb_spec y y2) as [Ey|Ey];
    cbn [andb] in Hne; try discriminate.
  - assert (rx = 0) by (destruct Hsx; subst sx; lia). subst rx.
    assert (H1 : 1 <= ry) by (destruct Hsy; subst sy; lia).
    assert (0 <= (ry - 1) * dx) by (apply Z.mul_nonneg_nonneg; lia).
    destruct (Wy H1) as [Ey' Ry'].
    destruct (Z.gtb_spec (2 * err) (- dy)); [lia|].
    destruct (Z.ltb_spec (2 * err) dx); [|lia].
    exists (err - 0 + dx), x, (GoInt.add y sy), 0, (ry - 1).
    split; [reflexivity|]. rewrite Ey'. unfold GoInt.in_range, GoInt.min_int, GoInt.max_int in *.
      repeat split; lia.
  - assert (ry = 0) by (destruct Hsy; subst sy; lia). subst ry.
    assert (H1 : 1 <= rx) by (destruct Hsx; subst sx; lia).
    assert (0 <= (rx - 1) * dy) by (apply Z.mul_nonneg_nonneg; lia).
    destruct (Wx H1) as [Ex' Rx'].
    destruct (Z.ltb_spec (2 * err) dx); [lia|].
    destruct (Z.gtb_spec (2 * err) (- dy)); [|lia].
    exists (err - dy + 0), (GoInt.add x sx), y, (rx - 1), 0.
    split; [reflexivity|]. rewrite Ex'. unfold GoInt.in_range, GoInt.min_int, GoInt.max_int in *.
      repeat split; lia.
  - assert (H1 : 1 <= rx) by (destruct Hsx; subst sx; lia).
    assert (H2 : 1 <= ry) by (destruct Hsy; subst sy; lia).
    destruct (Wx H1) as [Ex' Rx']. destruct (Wy H2) as [Ey' Ry'].
    destruct (Z.gtb_spec (2 * err) (- dy)), (Z.ltb_spec (2 * err) dx).
    + exists (err - dy + dx), (GoInt.add x sx), (GoInt.add y sy), (rx - 1), (ry - 1).
      split; [reflexivity|]. rewrite Ex', Ey'. unfold GoInt.in_range, GoInt.min_int, GoInt.max_int in *.
      repeat split; lia.
    + exists (err - dy + 0), (GoInt.add x sx), y, (rx - 1), ry.
      split; [reflexivity|]. rewrite Ex'. unfold GoInt.in_range, GoInt.min_int, GoInt.max_int in *.
      repeat split; lia.
    + exists (err - 0 + dx), x, (GoInt.add y sy), rx, (ry - 1).
      split; [reflexivity|]. rewrite Ey'. unfold GoInt.in_range, GoInt.min_int, GoInt.max_int in *.
      repeat split; lia.
    + lia.
Qed.

(** The points of a finished walk: it starts where it was asked to, ends
    at the target, and never leaves the rectangle between the two. *)
Lemma beelineTrace_shape (x2 y2 dx dy sx sy : Z) (fuel : nat) :
  (sx = 1 \/ sx = -1) -> (sy = 1 \/ sy = -1) ->
  GoInt.in_range x2 -> GoInt.in_range y2 -> dx <= 2 ^ 52 -> dy <= 2 ^ 52 ->
  forall x y err rx ry tr,
    onTheWay x2 y2 dx dy sx sy x y err rx ry ->
    beelineTrace fuel (mkPoint x y) (mkPoint x2 y2) dx dy err sx sy = Some tr ->
    mkPoint x y ∈ tr /\ mkPoint x2 y2 ∈ tr
    /\ forall p, p ∈ tr ->
         exists rx' ry', 0 <= rx' <= rx /\ 0 <= ry' <= ry
                         /\ X p = x2 - sx * rx' /\ Y p = y2 - sy * ry'.
Proof.
  intros Hsx Hsy Rx2 Ry2 Hdx Hdy.
  induction fuel as [|fuel IH]; intros x y err rx ry tr Hway Htr; [discriminate|].
  rewrite beelineTrace_S in Htr. cbn [X Y] in Htr.
  assert (Hhere : exists rx' ry', 0 <= rx' <= rx /\ 0 <= ry' <= ry
                    /\ X (mkPoint x y) = x2 - sx * rx' /\ Y (mkPoint x y) = y2 - sy * ry').
  { destruct Hway as (_ & _ & Hrx & Hry & Hx2 & Hy2 & _).
    exists rx, ry. cbn [X Y]. repeat split; lia. }
  destruct ((x =? x2) && (y =? y2)) eqn:Hat.
  - apply andb_true_iff in Hat as [Ex Ey]. apply Z.eqb_eq in Ex, Ey. subst x2 y2.
    inversion Htr; subst tr. split; [now apply list_elem_of_singleton|].
    split; [now apply list_elem_of_singleton|].
    intros p Hp. apply list_elem_of_singleton in Hp. subst p. exact Hhere.
  - destruct (beelineStep_onTheWay x2 y2 dx dy sx sy x y err rx ry)
      as (err' & x' & y' & rx' & ry' & Es & Hway' & Lx & Ly & _); try assumption.
    rewrite Es in Htr.
    destruct (beelineTrace fuel (mkPoint x' y') (mkPoint x2 y2) dx dy err' sx sy)
      as [tr0|] eqn:E0; [|discriminate].
    inversion Htr; subst tr.
    destruct (IH x' y' err' rx' ry' tr0 Hway' E0) as (_ & Hend & Hall).
    split; [apply elem_of_cons; now left|].
    split; [apply elem_of_cons; now right|].
    intros p Hp. apply elem_of_cons in Hp as [-> | Hp]; [exact Hhere|].
    destruct (Hall p Hp) as (a & b & Ha & Hb & HX & HY).
    exists a, b. repeat split; lia.
Qed.

(** A stroke between two points of a canvas-sized grid: the call returns
    once it has as much fuel as the two extents together, and the points
    it visits include both ends and stay between them. *)
Lemma drawBeeline_stroke (captcha : CaptchaImage) (point1 point2 : Point)
    (lineColor : RGBA) :
  Error captcha = None ->
  - 2 ^ 51 <= X point1 <= 2 ^ 51 -> - 2 ^ 51 <= Y point1 <= 2 ^ 51 ->
  - 2 ^ 51 <= X point2 <= 2 ^ 51 -> - 2 ^ 51 <= Y point2 <= 2 ^ 51 ->
  exists tr : list Point,
    (forall fuel : nat,
       (Z.to_nat (Z.abs (X point1 - X point2) + Z.abs (Y point1 - Y point2)) < fuel)%nat ->
       drawBeeline fuel captcha point1 point2 lineColor
       = Ret (withPixels captcha (paint lineColor (tr ≫= stampPoints) (nrgba captcha))))
    /\ point1 ∈ tr /\ point2 ∈ tr
    /\ forall p, p ∈ tr ->
         Z.min (X point1) (X point2) <= X p <= Z.max (X point1) (X point2)
         /\ Z.min (Y point1) (Y point2) <= Y p <= Z.max (Y point1) (Y point2).
Proof.
  intros He Hx1 Hy1 Hx2 Hy2. unfold drawBeeline. rewrite He.
  destruct point1 as [x1 y1], point2 as [x2 y2]. cbn [X Y] in *.
  set (dx := Z.abs (x1 - x2)). set (dy := Z.abs (y1 - y2)).
  assert (Edx : IntFloat.abs (IntFloat.of_int (GoInt.sub x1 x2)) = dx).
  { unfold IntFloat.abs, IntFloat.of_int, GoInt.sub.
    rewrite wrap_small by (apply in_range_small; lia).
    rewrite rne_exact by lia. reflexivity. }
  assert (Edy : IntFloat.abs (IntFloat.of_int (GoInt.sub y2 y1)) = dy).
  { unfold IntFloat.abs, IntFloat.of_int, GoInt.sub.
    rewrite wrap_small by (apply in_range_small; lia).
    rewrite rne_exact by lia. unfold dy. lia. }
  rewrite Edx, Edy.
  assert (Eerr : IntFloat.sub dx dy = dx - dy).
  { unfold IntFloat.sub. apply rne_exact. unfold dx, dy. lia. }
  rewrite Eerr.
  set (sx := if x1 >=? x2 then -1 else 1).
  set (sy := if y1 >=? y2 then -1 else 1).
  assert (Hsx : sx = 1 \/ sx = -1) by (unfold sx; destruct (x1 >=? x2); [now right | now left]).
  assert (Hsy : sy = 1 \/ sy = -1) by (unfold sy; destruct (y1 >=? y2); [now right | now left]).
  assert (Ex2 : x2 = x1 + sx * dx) by (unfold sx, dx; destruct (Z.geb_spec x1 x2); lia).
  assert (Ey2 : y2 = y1 + sy * dy) by (unfold sy, dy; destruct (Z.geb_spec y1 y2); lia).
  assert (Hdx : 0 <= dx <= 2 ^ 52) by (unfold dx; lia).
  assert (Hdy : 0 <= dy <= 2 ^ 52) by (unfold dy; lia).
  assert (Hway : onTheWay x2 y2 dx dy sx sy x1 y1 (dx - dy) dx dy).
  { unfold onTheWay. repeat split; try (apply in_range_small; lia); try lia. }
  destruct (beelineTrace_converges (Z.to_nat (dx + dy)) x1 y1 (dx - dy) x2 y2 dx dy sx sy dx dy)
    as [tr Htr]; try assumption; try (apply in_range_small; lia); try lia.
  assert (Rx2 : GoInt.in_range x2) by (apply in_range_small; lia).
  assert (Ry2 : GoInt.in_range y2) by (apply in_range_small; lia).
  destruct (beelineTrace_shape x2 y2 dx dy sx sy _ Hsx Hsy Rx2 Ry2 (proj2 Hdx) (proj2 Hdy)
              x1 y1 (dx - dy) dx dy tr Hway Htr) as (H1 & H2 & Hall).
  exists tr. split; [|split; [exact H1|split; [exact H2|]]].
  - intros fuel Hfuel. rewrite beelineLoop_trace.
    rewrite (beelineTrace_more_fuel _ fuel _ _ _ _ _ _ _ _ Htr) by lia.
    reflexivity.
  - intros p Hp. destruct (Hall p Hp) as (a & b & Ha & Hb & HX & HY).
    rewrite HX, HY. unfold sx, sy, dx, dy in *.
    destruct (Z.geb_spec x1 x2), (Z.geb_spec y1 y2); lia.
Qed.

Lemma elem_of_stampPoints (p : Point) (x y : Z) :
  - 2 ^ 51 <= X p <= 2 ^ 51 ->
  (x, y) ∈ stampPoints p <-> y = Y p /\ X p - 2 <= x <= X p + 2.
Proof.
  intros Hp. unfold stampPoints, GoInt.add, GoInt.sub.
  rewrite !wrap_small by (apply in_range_small; lia).
  rewrite !elem_of_cons, elem_of_nil. split.
  - intros [H|[H|[H|[H|[H|[]]]]]]; inversion H; lia.
  - intros [-> Hx].
    assert (Hc : x = X p \/ x = X p + 1 \/ x = X p - 1 \/ x = X p + 2 \/ x = X p - 2) by lia.
    destruct Hc as [->|[->|[->|[->| ->]]]];
      [ left | right; left | do 2 right; left | do 3 right; left | do 4 right; left ];
      reflexivity.
Qed.

(** X13 — Between two points of a canvas-sized grid [drawBeeline] returns
    within [|dx| + |dy| + 1] iterations and its stroke joins them: both end
    points, when they lie inside the canvas, hold the line colour; every
    pixel holds either the colour it had or the line colour; and nothing
    changes outside the rectangle spanned by the two points, widened by two
    columns on either side. *)
Theorem drawBeeline_joins_endpoints (captcha : CaptchaImage) (point1 point2 : Point)
    (lineColor : RGBA) :
  Error captcha = None ->
  - 2 ^ 51 <= X point1 <= 2 ^ 51 -> - 2 ^ 51 <= Y point1 <= 2 ^ 51 ->
  - 2 ^ 51 <= X point2 <= 2 ^ 51 -> - 2 ^ 51 <= Y point2 <= 2 ^ 51 ->
  exists m : NRGBA,
    (forall fuel : nat,
       (Z.to_nat (Z.abs (X point1 - X point2) + Z.abs (Y point1 - Y point2)) < fuel)%nat ->
       drawBeeline fuel captcha point1 point2 lineColor = Ret (withPixels captcha m))
    /\ (inBounds (Bounds (nrgba captcha)) (X point1) (Y point1) = true ->
        NRGBA_At m (X point1) (Y point1) = nrgbaModel lineColor)
    /\ (inBounds (Bounds (nrgba captcha)) (X point2) (Y point2) = true ->
        NRGBA_At m (X point2) (Y point2) = nrgbaModel lineColor)
    /\ (forall x y, NRGBA_At m x y = NRGBA_At (nrgba captcha) x y
                    \/ NRGBA_At m x y = nrgbaModel lineColor)
    /\ (forall x y, ~ inStrokeBox point1 point2 x y ->
                    NRGBA_At m x y = NRGBA_At (nrgba captcha) x y).
Proof.
  intros He Hx1 Hy1 Hx2 Hy2.
  destruct (drawBeeline_stroke captcha point1 point2 lineColor He Hx1 Hy1 Hx2 Hy2)
    as (tr & Hret & H1 & H2 & Hall).
  exists (paint lineColor (tr ≫= stampPoints) (nrgba captcha)).
  split; [exact Hret|].
  assert (Hon : forall p, p ∈ tr -> (X p, Y p) ∈ tr ≫= stampPoints).
  { intros p Hp. apply list_elem_of_bind. exists p. split; [|exact Hp].
    unfold stampPoints. apply elem_of_cons. now left. }
  split; [|split; [|split]].
  - intros Hin. rewrite At_paint, Hin. cbn [andb].
    rewrite bool_decide_eq_true_2; [reflexivity | now apply Hon].
  - intros Hin. rewrite At_paint, Hin. cbn [andb].
    rewrite bool_decide_eq_true_2; [reflexivity | now apply Hon].
  - intros x y. rewrite At_paint.
    destruct (inBounds (Bounds (nrgba captcha)) x y && bool_decide ((x, y) ∈ tr ≫= stampPoints));
      [now right | now left].
  - intros x y Hout. rewrite At_paint.
    rewrite bool_decide_eq_false_2; [now rewrite andb_false_r|].
    intros Hin. apply Hout. apply list_elem_of_bind in Hin as (p & Hin & Hp).
    destruct (Hall p Hp) as [HX HY].
    apply elem_of_stampPoints in Hin; [|lia].
    unfold inStrokeBox. lia.
Qed.


(** X14 — On a canvas without a stored error, between 10 and [2^51] pixels
    wide and between 3 and [2^51] pixels high, [DrawLine] returns for every
    number of lines and every state of the random source, each line taking
    fewer than [width + height] steps; no error is stored, the size and
    the bounds are unchanged, and every pixel either keeps its colour or
    holds an opaque colour. *)
Theorem DrawLine_returns (fuel : nat) (captcha : CaptchaImage) (num : Z) (g : Globals) :
  Error captcha = None ->
  10 <= width captcha <= 2 ^ 51 ->
  3 <= height captcha <= 2 ^ 51 ->
  (Z.to_nat (width captcha + height captcha) <= fuel)%nat ->
  exists (captcha' : CaptchaImage) (g' : Globals),
    DrawLine fuel captcha num g = Ret (captcha', g')
    /\ Error captcha' = None
    /\ width captcha' = width captcha /\ height captcha' = height captcha
    /\ Bounds (nrgba captcha') = Bounds (nrgba captcha)
    /\ forall x y, NRGBA_At (nrgba captcha') x y = NRGBA_At (nrgba captcha) x y
                   \/ A (NRGBA_At (nrgba captcha') x y) = 255.
Proof.
  intros He Hw Hh Hfuel. unfold DrawLine. rewrite He.
  set (first := GoInt.quot (width captcha) 10).
  set (yy := GoInt.quot (height captcha) 3).
  assert (Hfirst : 1 <= first /\ 10 * first <= width captcha).
  { unfold first. rewrite quot_small by (first [apply in_range_small; lia | lia]).
    rewrite Z.quot_div_nonneg by lia.
    pose proof (Z.mul_div_le (width captcha) 10 ltac:(lia)).
    pose proof (Z.div_le_lower_bound (width captcha) 10 1 ltac:(lia) ltac:(lia)). lia. }
  assert (Hyy : 1 <= yy /\ 3 * yy <= height captcha).
  { unfold yy. rewrite quot_small by (first [apply in_range_small; lia | lia]).
    rewrite Z.quot_div_nonneg by lia.
    pose proof (Z.mul_div_le (height captcha) 3 ltac:(lia)).
    pose proof (Z.div_le_lower_bound (height captcha) 3 1 ltac:(lia) ltac:(lia)). lia. }
  set (I := fun (c : CaptchaImage) (g0 : Globals) =>
              Error c = None
              /\ width c = width captcha /\ height c = height captcha
              /\ Bounds (nrgba c) = Bounds (nrgba captcha)
              /\ forall x y, NRGBA_At (nrgba c) x y = NRGBA_At (nrgba captcha) x y
                             \/ A (NRGBA_At (nrgba c) x y) = 255).
  match goal with
  | |- exists _ _, forM ?xs ?body captcha g = _ /\ _ =>
      destruct (forM_invariant I xs body) with (s := captcha) (g := g)
        as (c' & g' & E & HI)
  end.
  - intros i c g0 Hi (Ec & Wc & Hc & Bc & Pc). apply elem_of_seqZ in Hi. cbv beta.
    destruct (Intn_range first g0 ltac:(lia)) as (x1 & g1 & E1 & R1 & _).
    destruct (Intn_range yy g1 ltac:(lia)) as (y1 & g2 & E2 & R2 & _).
    destruct (Intn_range first g2 ltac:(lia)) as (x2 & g3 & E3 & R3 & _).
    destruct (Intn_range yy g3 ltac:(lia)) as (y2 & g4 & E4 & R4 & _).
    destruct (Intn_range yy g4 ltac:(lia)) as (a & g5 & E5 & R5 & _).
    destruct (Intn_range yy g5 ltac:(lia)) as (b & g6 & E6 & R6 & _).
    destruct (randDeepColor_returns g6) as (col & g7 & E7 & A7 & _).
    rewrite (bind_Ret _ _ _ _ _ E1), (bind_Ret _ _ _ _ _ E2), (bind_Ret _ _ _ _ _ E3),
      (bind_Ret _ _ _ _ _ E4).
    match goal with
    | |- context [bind (if ?c0 then ?m1 else ?m2) _ g4] =>
        assert (Eys : exists ys, (if c0 then m1 else m2) g4 = Ret (ys, g6)
                                 /\ 0 <= fst ys < 3 * yy /\ 0 <= snd ys < 3 * yy)
    end.
    { destruct (Z.eqb_spec (GoInt.rem i 2) 0) as [Hpar|Hpar];
        rewrite (bind_Ret _ _ _ _ _ E5), (bind_Ret _ _ _ _ _ E6);
        eexists; (split; [reflexivity|]); cbn [fst snd]; unfold GoInt.add, GoInt.mul.
      - rewrite (wrap_small (yy * 2)) by (apply in_range_small; lia).
        rewrite wrap_small by (apply in_range_small; lia). lia.
      - assert (Hrem : GoInt.rem i 2 = 1).
        { unfold GoInt.rem in *. rewrite Z.rem_mod_nonneg in * by lia.
          pose proof (Z.mod_pos_bound i 2 ltac:(lia)). lia. }
        rewrite Hrem.
        rewrite (wrap_small (yy * 1)), (wrap_small (yy * 2)) by (apply in_range_small; lia).
        rewrite !wrap_small by (apply in_range_small; lia). lia. }
    destruct Eys as (ys & Eys & Hf & Hs).
    rewrite (bind_Ret _ _ _ _ _ Eys), (bind_Ret _ _ _ _ _ E7). cbn [X Y].
    assert (Ex2 : GoInt.add x2 (GoInt.mul first 9) = x2 + first * 9).
    { unfold GoInt.add, GoInt.mul.
      rewrite (wrap_small (first * 9)) by (apply in_range_small; lia).
      apply wrap_small, in_range_small. lia. }
    rewrite Ex2.
    destruct (drawBeeline_stroke c (mkPoint x1 (fst ys)) (mkPoint (x2 + first * 9) (snd ys)) col)
      as (tr & Hret & _); try assumption; cbn [X Y]; try lia.
    rewrite Hret by (cbn [X Y]; lia).
    unfold lift. eexists _, _. split; [reflexivity|].
    repeat split; try assumption.
    + cbn [nrgba withPixels]. now rewrite Bounds_paint.
    + intros x y. cbn [nrgba withPixels]. rewrite At_paint.
      destruct (inBounds (Bounds (nrgba c)) x y && bool_decide ((x, y) ∈ tr ≫= stampPoints)).
      * right. now apply nrgbaModel_alpha.
      * apply Pc.
  - repeat split; try assumption. intros x y. now left.
  - exists c', g'. split; [exact E | exact HI].
Qed.

(** ** The hollow line *)

Lemma tinted_refl (c : RGBA) (m : NRGBA) : tinted c m m.
Proof. split; [reflexivity | intros x y; now left]. Qed.

Lemma tinted_trans (c : RGBA) (m0 m1 m2 : NRGBA) :
  tinted c m0 m1 -> tinted c m1 m2 -> tinted c m0 m2.
Proof.
  intros [B1 P1] [B2 P2]. split; [congruence|]. intros x y.
  destruct (P2 x y) as [E|E]; [rewrite E; apply P1 | now right].
Qed.

Lemma tinted_paint (c : RGBA) (pts : list (Z * Z)) (m : NRGBA) : tinted c m (paint c pts m).
Proof.
  split; [apply Bounds_paint|]. intros x y. rewrite At_paint.
  destruct (inBounds (Bounds m) x y && bool_decide ((x, y) ∈ pts)); [now right | now left].
Qed.

Lemma tinted_hollowColumn (c : RGBA) (m : NRGBA) (x y w : Z) :
  tinted c m (hollowColumn m x y w c).
Proof.
  unfold hollowColumn. eapply tinted_trans; [|apply tinted_paint].
  apply (tinted_paint c [(x, y)] m).
Qed.

Lemma countsFrom_spec (k : nat) :
  forall n i, countsFrom k n = true -> n <= i < n + Z.of_nat k -> countsExactly i = true.
Proof.
  induction k as [|k IH]; intros n i Hc Hi; [lia|].
  cbn [countsFrom] in Hc. apply andb_true_iff in Hc as [H0 Hc].
  destruct (Z.eq_dec i n) as [-> | Hne]; [exact H0|].
  apply (IH (n + 1)); [exact Hc | lia].
Qed.

Lemma counts_to_65536 : countsFrom (Z.to_nat 65537) 0 = true.
Proof. vm_compute. reflexivity. Qed.

(** The column loop from [float64(n)] up to [float64(n2)] ends, within
    [n2 - n] columns. *)
Lemma hollowLoop_returns (captcha : CaptchaImage) (multiple : float) (w : Z) (c : RGBA)
    (k : nat) :
  forall (n n2 : Z) (fuel : nat) (m : NRGBA),
    0 <= n <= n2 -> n2 <= 65536 ->
    (Z.to_nat (n2 - n) <= k)%nat -> (k < fuel)%nat ->
    exists m', hollowLoop fuel captcha (F64.of_int n) (F64.of_int n2) multiple w c m = Ret m'
               /\ tinted c m m'.
Proof.
  induction k as [|k IH]; intros n n2 fuel m Hn Hn2 Hk Hfuel;
    (destruct fuel as [|fuel]; [lia|]); cbn [hollowLoop].
  - assert (n = n2) by lia. subst n2.
    pose proof (countsFrom_spec _ 0 n counts_to_65536 ltac:(lia)) as Hc.
    apply andb_true_iff in Hc as [_ Hc]. apply negb_true_iff in Hc. rewrite Hc.
    exists m. split; [reflexivity | apply tinted_refl].
  - destruct (F64.of_int n <? F64.of_int n2)%float eqn:L.
    + assert (Hlt : n < n2).
      { destruct (Z.eq_dec n n2) as [-> | Hne]; [|lia].
        pose proof (countsFrom_spec _ 0 n2 counts_to_65536 ltac:(lia)) as Hc.
        apply andb_true_iff in Hc as [_ Hc]. apply negb_true_iff in Hc. congruence. }
      pose proof (countsFrom_spec _ 0 n counts_to_65536 ltac:(lia)) as Hc.
      apply andb_true_iff in Hc as [Hc _]. apply FloatAxioms.Leibniz.eqb_spec in Hc.
      rewrite Hc.
      match goal with
      | |- context [hollowLoop fuel captcha _ _ multiple w c ?m1] =>
          destruct (IH (n + 1) n2 fuel m1) as (m' & E & T); try lia
      end.
      exists m'. split; [exact E|].
      eapply tinted_trans; [apply tinted_hollowColumn | exact T].
    + exists m. split; [reflexivity | apply tinted_refl].
Qed.

(** X15 — On a canvas without a stored error and between 20 and 65536
    pixels wide, [DrawHollowLine] returns for every state of the random
    source and every value of the sine, within [width] columns; the bounds
    are unchanged and every pixel holds either the colour it had or the
    line's fixed colour (245, 250, 251). *)
Theorem DrawHollowLine_returns (fuel : nat) (captcha : CaptchaImage) (g : Globals) :
  Error captcha = None ->
  20 <= width captcha <= 65536 ->
  (Z.to_nat (width captcha) <= fuel)%nat ->
  exists (m : NRGBA) (g' : Globals),
    DrawHollowLine fuel captcha g = Ret (withPixels captcha m, g')
    /\ Bounds m = Bounds (nrgba captcha)
    /\ forall x y, NRGBA_At m x y = NRGBA_At (nrgba captcha) x y
                   \/ NRGBA_At m x y = mkRGBA 245 250 251 255.
Proof.
  intros He Hw Hfuel. unfold DrawHollowLine. rewrite He.
  set (first := GoInt.quot (width captcha) 20).
  assert (Hfirst : 1 <= first /\ 20 * first <= width captcha).
  { unfold first. rewrite quot_small by (first [apply in_range_small; lia | lia]).
    rewrite Z.quot_div_nonneg by lia.
    pose proof (Z.mul_div_le (width captcha) 20 ltac:(lia)).
    pose proof (Z.div_le_lower_bound (width captcha) 20 1 ltac:(lia) ltac:(lia)). lia. }
  destruct (Intn_range first g ltac:(lia)) as (a & g1 & E1 & R1 & _).
  destruct (Intn_range first g1 ltac:(lia)) as (b & g2 & E2 & R2 & _).
  destruct (Intn_range 5 g2 ltac:(lia)) as (k & g3 & E3 & R3 & _).
  rewrite (bind_Ret _ _ _ _ _ E1), (bind_Ret _ _ _ _ _ E2), (bind_Ret _ _ _ _ _ E3).
  assert (Eb : GoInt.add b (GoInt.mul first 19) = b + first * 19).
  { unfold GoInt.add, GoInt.mul.
    rewrite (wrap_small (first * 19)) by (apply in_range_small; lia).
    apply wrap_small, in_range_small. lia. }
  rewrite Eb.
  match goal with
  | |- context [hollowLoop fuel captcha _ _ ?mult ?w0 ?c0 ?m0] =>
      destruct (hollowLoop_returns captcha mult w0 c0 (Z.to_nat (b + first * 19 - a))
                  a (b + first * 19) fuel m0) as (m' & E & [TB TP]); try lia
  end.
  rewrite E. unfold lift, bind, ret. exists m', g3.
  split; [reflexivity|]. split; [exact TB | exact TP].
Qed.

(** ** Export to a reader *)


(** ** The font directory *)

Lemma ReadFonts_files (dirPth suffix : string) (dir : list FileInfo) :
  forall files : list string,
    fold_left
      (fun files fi =>
         if IsDir fi then files
         else if HasSuffix (ToUpper (Name fi)) (ToUpper suffix)
              then files ++ [dirPth +:+ PathSeparator +:+ Name fi]
              else files)
      dir files
    = files ++ (fontPath dirPth <$> List.filter (isFontFile suffix) dir).
Proof.
  induction dir as [|fi dir IH]; intros files.
  - simpl. now rewrite app_nil_r.
  - cbn [fold_left List.filter]. rewrite IH. unfold isFontFile at 2.
    destruct (IsDir fi); cbn [negb andb]; [reflexivity|].
    destruct (HasSuffix (ToUpper (Name fi)) (ToUpper suffix)); [|reflexivity].
    rewrite <- app_assoc. reflexivity.
Qed.

(** X17 — When the directory can be listed, [ReadFonts] returns [nil] and
    appends to the registry, after the entries it already had and in the
    order of the listing, the path [dirPth + separator + name] of every
    entry that is not a directory and whose upper-cased name ends in the
    upper-cased suffix, and of no other; when the directory cannot be
    listed it returns that error and leaves the registry as it was. *)
Theorem ReadFonts_registers (dirPth suffix : string) (g : Globals) :
  (forall dir, ReadDir dirPth = (dir, None) ->
     ReadFonts dirPth suffix g
     = Ret (None, mkGlobals (rand g)
                    (fontFamily g ++ (fontPath dirPth <$> List.filter (isFontFile suffix) dir))
                    (dpi g)))
  /\ (forall dir e, ReadDir dirPth = (dir, Some e) ->
        ReadFonts dirPth suffix g = Ret (Some e, g)).
Proof.
  split.
  - intros dir Hd. unfold ReadFonts. rewrite Hd.
    cbv zeta. rewrite (ReadFonts_files dirPth suffix dir []). reflexivity.
  - intros dir e Hd. unfold ReadFonts. rewrite Hd. reflexivity.
Qed.

(** X18 — [ReadFonts] reports success even when nothing in the directory
    is a font file: over an empty registry it returns [nil], the registry
    stays empty, and the next [DrawText] on a clean canvas with a
    non-empty text panics in [rand.Intn] instead of returning an error. *)
Theorem ReadFonts_without_fonts_then_DrawText_panics (dirPth suffix : string)
    (dir : list FileInfo) (captcha : CaptchaImage) (text : string) (g : Globals) :
  fontFamily g = [] ->
  ReadDir dirPth = (dir, None) ->
  (forall fi, fi ∈ dir -> isFontFile suffix fi = false) ->
  Error captcha = None ->
  text <> "" ->
  rangeString text <> [] ->
  exists g' : Globals,
    ReadFonts dirPth suffix g = Ret (None, g')
    /\ fontFamily g' = []
    /\ DrawText captcha text g' = Panic "invalid argument to Intn".
Proof.
  intros Hnil Hd Hnone He Ht Hr.
  assert (Hf : List.filter (isFontFile suffix) dir = []).
  { clear Hd. induction dir as [|fi dir IH]; [reflexivity|].
    cbn [List.filter]. rewrite (Hnone fi) by (apply elem_of_cons; now left).
    apply IH. intros fi' Hin. apply Hnone. apply elem_of_cons. now right. }
  exists (mkGlobals (rand g) [] (dpi g)). split; [|split].
  - unfold ReadFonts. rewrite Hd. cbv zeta.
    rewrite (ReadFonts_files dirPth suffix dir []), Hf.
    unfold bind, SetFontFamily, ret. rewrite Hnil. reflexivity.
  - reflexivity.
  - now apply DrawText_empty_registry.
Qed.


End Drawing.

(** ** Colour codes *)

(** X5 — [ColorToRGB] unpacks [0xRRGGBB]: the colour code made of three
    bytes [r], [g], [b] gives back [r], [g], [b] with alpha 255, and bits
    above the 24th of the code are ignored. *)
Theorem ColorToRGB_unpacks_bytes (r g b k : Z) :
  0 <= r <= 255 -> 0 <= g <= 255 -> 0 <= b <= 255 ->
  ColorToRGB (k * 2 ^ 24 + r * 65536 + g * 256 + b) = mkRGBA r g b 255.
Proof.
  intros Hr Hg Hb. unfold ColorToRGB.
  set (v := k * 2 ^ 24 + r * 65536 + g * 256 + b).
  rewrite Z.shiftr_land. change (Z.shiftr 65280 8) with (Z.ones 8).
  change (Z.land v 255) with (Z.land v (Z.ones 8)). rewrite !Z.land_ones by lia.
  rewrite !Z.shiftr_div_pow2 by lia. unfold uint8.
  change (2 ^ 8) with 256. change (2 ^ 16) with 65536.
  assert (E1 : (v / 65536) mod 256 = r).
  { unfold v. change (2 ^ 24) with 16777216. Z.div_mod_to_equations. lia. }
  assert (E2 : (v / 256) mod 256 = g).
  { unfold v. change (2 ^ 24) with 16777216. Z.div_mod_to_equations. lia. }
  assert (E3 : v mod 256 = b).
  { unfold v. change (2 ^ 24) with 16777216. Z.div_mod_to_equations. lia. }
  rewrite E1, E2, E3. rewrite !Z.mod_small by lia.
  reflexivity.
Qed.

(** * The theorems at concrete inputs *)

(** Each conjunct of a closed goal is decided by evaluation. *)
Ltac by_evaluation :=
  repeat match goal with |- _ /\ _ => split end; vm_compute; reflexivity.

(** C1 at the canvas of a failed text operation. *)
Lemma sticky_first_error_witness :
  Error failedCanvas = Some "open a.ttf: no such file or directory"
  /\ (DrawBorder failedCanvas black (mkGlobals [3; 1; 4] ["a.ttf"] 72%float)
        = Ret (failedCanvas, mkGlobals [3; 1; 4] ["a.ttf"] 72%float)
      /\ DrawHollowLine flatSin 64 failedCanvas (mkGlobals [3; 1; 4] ["a.ttf"] 72%float)
        = Ret (failedCanvas, mkGlobals [3; 1; 4] ["a.ttf"] 72%float)
      /\ DrawSineLine specRandom flatSin failedCanvas
           (mkGlobals [3; 1; 4] ["a.ttf"] 72%float)
        = Ret (failedCanvas, mkGlobals [3; 1; 4] ["a.ttf"] 72%float)
      /\ DrawLine 64 failedCanvas 3 (mkGlobals [3; 1; 4] ["a.ttf"] 72%float)
        = Ret (failedCanvas, mkGlobals [3; 1; 4] ["a.ttf"] 72%float)
      /\ DrawNoise failedCanvas CaptchaComplexMedium
           (mkGlobals [3; 1; 4] ["a.ttf"] 72%float)
        = Ret (failedCanvas, mkGlobals [3; 1; 4] ["a.ttf"] 72%float)
      /\ DrawTextNoise unit tt noFile noFont blankDrawString failedCanvas
           CaptchaComplexMedium (mkGlobals [3; 1; 4] ["a.ttf"] 72%float)
        = Ret (failedCanvas, mkGlobals [3; 1; 4] ["a.ttf"] 72%float)
      /\ DrawText unit tt noFile noFont (asciiRunes 0) blankDrawString failedCanvas
           "a1B2" (mkGlobals [3; 1; 4] ["a.ttf"] 72%float)
        = Ret (failedCanvas, mkGlobals [3; 1; 4] ["a.ttf"] 72%float)).
Proof.
  split; [reflexivity|].
  exact (sticky_first_error unit tt noFile noFont specRandom flatSin (asciiRunes 0)
           blankDrawString failedCanvas _ eq_refl
           (mkGlobals [3; 1; 4] ["a.ttf"] 72%float) 64%nat black 3
           CaptchaComplexMedium "a1B2").
Defined.

(** C2 as stated fails: a canvas with a stored error is encoded like any
    other, and [SaveImage] reports the encoder's success. *)
Lemma SaveImage_drops_stored_error :
  Error failedCanvas = Some "open a.ttf: no such file or directory"
  /\ SaveImage okEncode okEncodeWith okEncodeWith failedCanvas [] ImageFormatPng
     = (failedCanvas, [137; 80; 78; 71], None)
  /\ SaveImage okEncode okEncodeWith okEncodeWith failedCanvas [] ImageFormatJpeg
     = (failedCanvas, [255; 216], None)
  /\ SaveImage okEncode okEncodeWith okEncodeWith failedCanvas [] ImageFormatGif
     = (failedCanvas, [255; 216], None).
Proof. repeat split; reflexivity. Qed.

(** C6 at format 3. *)
Lemma SaveImage_unsupported_format_witness :
  (3 <> ImageFormatPng /\ 3 <> ImageFormatJpeg /\ 3 <> ImageFormatGif)
  /\ SaveImage okEncode okEncodeWith okEncodeWith (New 8 4 white) [] 3
     = (New 8 4 white, [], Some "not supported image format").
Proof.
  split; [repeat split; discriminate|].
  apply (SaveImage_unsupported_format okEncode okEncodeWith okEncodeWith
           (New 8 4 white) [] 3); discriminate.
Defined.

(** C10 at an 80 by 30 canvas: the empty text panics, a text of four
    bytes gives glyph cells of width 20. *)
Lemma DrawText_empty_text_panics_witness :
  Error (New 80 30 white) = None
  /\ DrawText unit tt noFile noFont (asciiRunes 0) blankDrawString (New 80 30 white) ""
       (mkGlobals [3; 1; 4] ["a.ttf"] 72%float)
     = Panic "runtime error: integer divide by zero"
  /\ "a1B2" <> ""
  /\ go_div (width (New 80 30 white)) (Z.of_nat (String.length "a1B2"))
     = Ret (GoInt.quot (width (New 80 30 white)) (Z.of_nat (String.length "a1B2"))).
Proof.
  split; [reflexivity|].
  destruct (DrawText_empty_text_panics unit tt noFile noFont (asciiRunes 0)
              blankDrawString (New 80 30 white)
              (mkGlobals [3; 1; 4] ["a.ttf"] 72%float) eq_refl) as [Hempty Hother].
  split; [exact Hempty|].
  split; [discriminate|].
  exact (proj2 (Hother "a1B2" ltac:(discriminate))).
Defined.

(** C7: with no font registered, [DrawText] on a clean canvas crashes at the
    first rune instead of recording an error. *)
Example DrawText_without_fonts_panics :
  DrawText unit tt noFile noFont (asciiRunes 0) blankDrawString (New 80 30 white) "a1B2"
    (mkGlobals [3; 1; 4; 1; 5] [] 72%float)
  = Panic "invalid argument to Intn".
Proof. vm_compute. reflexivity. Qed.

(** C3 on a 20 by 6 canvas. *)
Lemma drawBeeline_horizontal_witness :
  Error (New 20 6 white) = None
  /\ (11 <= 11)%nat
  /\ exists m,
       drawBeeline 11 (New 20 6 white) (mkPoint 0 0) (mkPoint 10 0) black
         = Ret (withPixels (New 20 6 white) m)
       /\ forall x y,
            NRGBA_At m x y =
            if inBounds (Bounds (nrgba (New 20 6 white))) x y
               && (y =? 0) && (-2 <=? x) && (x <=? 12)
            then nrgbaModel black
            else NRGBA_At (nrgba (New 20 6 white)) x y.
Proof.
  split; [reflexivity|]. split; [apply le_n|].
  exact (drawBeeline_horizontal (New 20 6 white) black 11 eq_refl (le_n 11)).
Defined.

(** C3 as stated fails: on a white canvas the black line from (0,0) to
    (10,0) leaves the pixels below row 0 white, for instance (5,1) and
    (5,2), which lie inside the canvas; it does reach (12,0), two pixels
    past the end point. *)
Lemma drawBeeline_horizontal_is_one_pixel_high :
  inBounds (Bounds (nrgba (New 20 6 white))) 5 1 = true
  /\ inBounds (Bounds (nrgba (New 20 6 white))) 5 2 = true
  /\ pixelOf (drawBeeline 11 (New 20 6 white) (mkPoint 0 0) (mkPoint 10 0) black)
             id 5 0 = Some black
  /\ pixelOf (drawBeeline 11 (New 20 6 white) (mkPoint 0 0) (mkPoint 10 0) black)
             id 5 1 = Some white
  /\ pixelOf (drawBeeline 11 (New 20 6 white) (mkPoint 0 0) (mkPoint 10 0) black)
             id 5 2 = Some white
  /\ pixelOf (drawBeeline 11 (New 20 6 white) (mkPoint 0 0) (mkPoint 10 0) black)
             id 12 0 = Some black
  /\ pixelOf (drawBeeline 11 (New 20 6 white) (mkPoint 0 0) (mkPoint 10 0) black)
             id 13 0 = Some white.
Proof. by_evaluation. Qed.

(** C5 as stated fails: the largest draws give 254, and no state of the
    source gives a red or a green of 255. *)
Lemma randColor_never_255 :
  randColor (mkGlobals [254; 509; 7] [] 72%float)
    = Ret (mkRGBA 254 254 0 255, mkGlobals [] [] 72%float)
  /\ forall g c g', randColor g = Ret (c, g') -> R c <> 255 /\ G c <> 255.
Proof.
  split; [vm_compute; reflexivity|].
  intros g c g' Hc.
  destruct (randColor_draws g) as (red & green & g1 & Hd & Hr & Hg).
  rewrite Hd in Hc. injection Hc as <- _. simpl. lia.
Qed.

(** C9 on a canvas-sized line. *)
Lemma drawBeeline_terminates_witness :
  (GoInt.in_range 3 /\ GoInt.in_range 20 /\ GoInt.in_range 70 /\ GoInt.in_range 2)
  /\ (Z.abs (3 - 70) <= 2 ^ 52 /\ Z.abs (20 - 2) <= 2 ^ 52)
  /\ exists captcha',
       forall fuel : nat,
         (Z.to_nat (Z.abs (X (mkPoint 3 20) - X (mkPoint 70 2))
                    + Z.abs (Y (mkPoint 3 20) - Y (mkPoint 70 2))) < fuel)%nat ->
         drawBeeline fuel (New 80 30 white) (mkPoint 3 20) (mkPoint 70 2) black
           = Ret captcha'.
Proof.
  assert (R : forall z, - 100 <= z <= 100 -> GoInt.in_range z).
  { intros z Hz. unfold GoInt.in_range, GoInt.min_int, GoInt.max_int. lia. }
  split; [repeat split; apply R; lia|].
  split; [split; vm_compute; discriminate|].
  apply (drawBeeline_terminates (New 80 30 white) (mkPoint 3 20) (mkPoint 70 2) black);
    try (apply R; simpl; lia); vm_compute; discriminate.
Defined.

(** C9 as stated fails: (1, 2^54) is a pair of [int] values, and from
    (0,0) the loop never reaches it, whatever the number of iterations
    allowed. *)
Lemma drawBeeline_diverges :
  (GoInt.in_range 1 /\ GoInt.in_range (2 ^ 54))
  /\ forall fuel : nat,
       drawBeeline fuel (New 4 4 white) (mkPoint 0 0) (mkPoint 1 (2 ^ 54)) black
       = OutOfFuel.
Proof.
  split.
  - unfold GoInt.in_range, GoInt.min_int, GoInt.max_int. lia.
  - intros fuel. unfold drawBeeline.
    change (Error (New 4 4 white)) with (@None error). cbv iota. cbn [X Y].
    replace (IntFloat.abs (IntFloat.of_int (GoInt.sub 0 1))) with 1
      by (vm_compute; reflexivity).
    replace (IntFloat.abs (IntFloat.of_int (GoInt.sub (2 ^ 54) 0))) with (2 ^ 54)
      by (vm_compute; reflexivity).
    replace (IntFloat.sub 1 (2 ^ 54)) with (- 2 ^ 54) by (vm_compute; reflexivity).
    change (0 >=? 1) with false. change (0 >=? 2 ^ 54) with false. cbv iota.
    now rewrite beelineLoop_stuck.
Qed.

(** C8 on a 24 by 10 canvas with amplitude 0, so that the curve is the
    row 5 whatever the sine. *)
Lemma DrawSineLine_runs_witness :
  Error (New 24 10 white) = None
  /\ exists p g',
       sineParams specRandom (New 24 10 white)
         (mkGlobals [0; 3; 2; 0; 0; 10; 20; 30] [] 72%float) = Ret (p, g')
       /\ exists m,
            DrawSineLine specRandom flatSin (New 24 10 white)
              (mkGlobals [0; 3; 2; 0; 0; 10; 20; 30] [] 72%float)
              = Ret (withPixels (New 24 10 white) m, g')
            /\ (forall x y, inBounds (Bounds (nrgba (New 24 10 white))) x y = true ->
                            sineStroke flatSin (New 24 10 white) p x y ->
                            NRGBA_At m x y = nrgbaModel (sine_c p))
            /\ (forall x y, ~ sineStroke flatSin (New 24 10 white) p x y ->
                            NRGBA_At m x y = NRGBA_At (nrgba (New 24 10 white)) x y).
Proof.
  split; [reflexivity|].
  eexists _, _. split; [vm_compute; reflexivity|].
  apply (DrawSineLine_runs specRandom flatSin (New 24 10 white) _ _ _ eq_refl).
  vm_compute. reflexivity.
Defined.

(** C8 as stated fails: with [height/5 = 2] and the curve on row 5, the
    column 3 of the extent [[0, 19)] has no vertical run, (3,4) and (3,6)
    stay white, and column 0 is not painted at all; the run of column 3
    lies on row 5, at columns 4 and 5. *)
Lemma DrawSineLine_run_is_not_vertical :
  match sineParams specRandom (New 24 10 white)
          (mkGlobals [0; 3; 2; 0; 0; 10; 20; 30] [] 72%float) with
  | Ret (p, _) =>
      sine_a p = 0
      /\ sine_px2 p = 19
      /\ F64.neq (sine_w p) 0 = true
      /\ sine_c p = mkRGBA 10 20 30 255
      /\ sineRow flatSin (New 24 10 white) p 0 = 5
      /\ sineRow flatSin (New 24 10 white) p 3 = 5
  | _ => False
  end
  /\ GoInt.quot (height (New 24 10 white)) 5 = 2
  /\ pixelOf (DrawSineLine specRandom flatSin (New 24 10 white)
                (mkGlobals [0; 3; 2; 0; 0; 10; 20; 30] [] 72%float)) fst 3 4
     = Some white
  /\ pixelOf (DrawSineLine specRandom flatSin (New 24 10 white)
                (mkGlobals [0; 3; 2; 0; 0; 10; 20; 30] [] 72%float)) fst 3 6
     = Some white
  /\ pixelOf (DrawSineLine specRandom flatSin (New 24 10 white)
                (mkGlobals [0; 3; 2; 0; 0; 10; 20; 30] [] 72%float)) fst 0 5
     = Some white
  /\ pixelOf (DrawSineLine specRandom flatSin (New 24 10 white)
                (mkGlobals [0; 3; 2; 0; 0; 10; 20; 30] [] 72%float)) fst 4 5
     = Some (mkRGBA 10 20 30 255)
  /\ pixelOf (DrawSineLine specRandom flatSin (New 24 10 white)
                (mkGlobals [0; 3; 2; 0; 0; 10; 20; 30] [] 72%float)) fst 5 5
     = Some (mkRGBA 10 20 30 255).
Proof.
  split; [vm_compute; repeat split; reflexivity|]. by_evaluation.
Qed.

(** ** The operations on a small pipeline

    A font file that cannot be read makes [DrawText] store the error; the
    border drawn afterwards changes nothing; without the failure the
    border is drawn on the four edges only. *)
Example DrawText_records_font_error :
  errorOf (DrawText unit tt noFile noFont (asciiRunes 0) blankDrawString
             (New 80 30 white) "a1B2"
             (mkGlobals [3; 1; 4; 1; 5; 9; 2; 6] ["a.ttf"] 72%float)) fst
  = Some (Some "open a.ttf: no such file or directory").
Proof. vm_compute. reflexivity. Qed.

Example DrawBorder_after_failure :
  pixelOf (bind (DrawText unit tt noFile noFont (asciiRunes 0) blankDrawString
                   (New 80 30 white) "a1B2")
                (fun c => DrawBorder c black)
                (mkGlobals [3; 1; 4; 1; 5; 9; 2; 6] ["a.ttf"] 72%float)) fst 0 0
  = Some white.
Proof. vm_compute. reflexivity. Qed.

Example DrawBorder_edges :
  pixelOf (DrawBorder (New 8 4 white) black (mkGlobals [] [] 72%float)) fst 0 0
    = Some black
  /\ pixelOf (DrawBorder (New 8 4 white) black (mkGlobals [] [] 72%float)) fst 7 3
    = Some black
  /\ pixelOf (DrawBorder (New 8 4 white) black (mkGlobals [] [] 72%float)) fst 3 1
    = Some white.
Proof. by_evaluation. Qed.

Example DrawLine_and_DrawNoise_return :
  errorOf (DrawLine 200 (New 80 30 white) 3
             (mkGlobals [3; 1; 4; 1; 5; 9; 2; 6; 5; 3; 5; 8; 9; 7; 9; 3] [] 72%float)) fst
    = Some None
  /\ errorOf (DrawNoise (New 20 10 white) CaptchaComplexHigh
                (mkGlobals [3; 1; 4; 1; 5; 9; 2; 6; 5; 3; 5; 8; 9; 7; 9; 3] [] 72%float)) fst
    = Some None.
Proof. by_evaluation. Qed.

Example RandText_alphabet :
  RandText 5 (mkGlobals [3; 1; 4; 1; 5; 9] [] 72%float)
  = Ret ("DBEBF", mkGlobals [9] [] 72%float).
Proof. vm_compute. reflexivity. Qed.

Example ColorToRGB_unpacks : ColorToRGB 3368601 = mkRGBA 51 102 153 255.
Proof. reflexivity. Qed.

(** ** The rest of the package at concrete inputs *)

(** X1 on an 8 by 4 white canvas. *)
Lemma New_background_witness :
  (0 <= 3 < 8 /\ 0 <= 1 < 4)
  /\ (0 <= R white <= 255 /\ 0 <= G white <= 255 /\ 0 <= B white <= 255 /\ A white = 255)
  /\ NRGBA_At (nrgba (New 8 4 white)) 3 1 = white
  /\ NRGBA_At (nrgba (NewCaptchaImage 8 4 white)) 3 1 = white
  /\ width (New 8 4 white) = 8 /\ height (New 8 4 white) = 4
  /\ Error (New 8 4 white) = None.
Proof.
  split; [lia|]. split; [cbn; repeat split; lia|].
  apply (New_background 8 4 white 3 1); cbn; lia.
Defined.

(** X2 on an 8 by 4 white canvas. *)
Lemma DrawBorder_frame_witness :
  Error (New 8 4 white) = None
  /\ GoInt.min_int < width (New 8 4 white) <= GoInt.max_int
  /\ GoInt.min_int < height (New 8 4 white) <= GoInt.max_int
  /\ exists m,
       DrawBorder (New 8 4 white) black (mkGlobals [3; 1; 4] [] 72%float)
         = Ret (withPixels (New 8 4 white) m, mkGlobals [3; 1; 4] [] 72%float)
       /\ (forall x y, inBounds (Bounds (nrgba (New 8 4 white))) x y = true ->
                       onFrame (New 8 4 white) x y ->
                       NRGBA_At m x y = nrgbaModel black)
       /\ (forall x y, ~ onFrame (New 8 4 white) x y ->
                       NRGBA_At m x y = NRGBA_At (nrgba (New 8 4 white)) x y).
Proof.
  assert (Hw : GoInt.min_int < width (New 8 4 white) <= GoInt.max_int)
    by (split; reflexivity || discriminate).
  assert (Hh : GoInt.min_int < height (New 8 4 white) <= GoInt.max_int)
    by (split; reflexivity || discriminate).
  split; [reflexivity|]. split; [exact Hw|]. split; [exact Hh|].
  exact (DrawBorder_frame (New 8 4 white) black (mkGlobals [3; 1; 4] [] 72%float)
           eq_refl Hw Hh).
Defined.

(** X5 at the colour code 0x336699, and with a bit above the 24th set. *)
Lemma ColorToRGB_unpacks_bytes_witness :
  (0 <= 51 <= 255 /\ 0 <= 102 <= 255 /\ 0 <= 153 <= 255)
  /\ ColorToRGB (0 * 2 ^ 24 + 51 * 65536 + 102 * 256 + 153) = mkRGBA 51 102 153 255
  /\ ColorToRGB (1 * 2 ^ 24 + 51 * 65536 + 102 * 256 + 153) = mkRGBA 51 102 153 255.
Proof.
  split; [lia|]. split.
  - apply (ColorToRGB_unpacks_bytes 51 102 153 0); lia.
  - apply (ColorToRGB_unpacks_bytes 51 102 153 1); lia.
Defined.

(** X6 with one registered file, which cannot be read. *)
Lemma RandFontFamily_registered_witness :
  fontFamily (mkGlobals [3; 1; 4] ["a.ttf"] 72%float) <> []
  /\ exists (fontFile : string) (f : unit) (err : option error) (g' : Globals),
       RandFontFamily unit tt noFile noFont (mkGlobals [3; 1; 4] ["a.ttf"] 72%float)
         = Ret ((f, err), g')
       /\ fontFile ∈ fontFamily (mkGlobals [3; 1; 4] ["a.ttf"] 72%float)
       /\ (err = None <->
           snd (noFile fontFile) = None /\ snd (noFont (fst (noFile fontFile))) = None)
       /\ (err = None -> f = fst (noFont (fst (noFile fontFile))))
       /\ (err <> None -> f = tt)
       /\ fontFamily g' = fontFamily (mkGlobals [3; 1; 4] ["a.ttf"] 72%float).
Proof.
  split; [discriminate|].
  apply (RandFontFamily_registered unit tt noFile noFont
           (mkGlobals [3; 1; 4] ["a.ttf"] 72%float)).
  discriminate.
Defined.

(** X7 on an 80 by 30 canvas, the one registered file being unreadable. *)
Lemma DrawText_stores_font_error_witness :
  Error (New 80 30 white) = None
  /\ "a1B2" <> ""
  /\ asciiRunes 0 "a1B2" <> []
  /\ fontFamily (mkGlobals [3; 1; 4; 1; 5; 9; 2; 6] ["a.ttf"] 72%float) <> []
  /\ (forall fontFile,
        fontFile ∈ fontFamily (mkGlobals [3; 1; 4; 1; 5; 9; 2; 6] ["a.ttf"] 72%float) ->
        snd (loadFont unit tt noFile noFont fontFile) <> None)
  /\ exists (fontFile : string) (e : error) (g' : Globals),
       DrawText unit tt noFile noFont (asciiRunes 0) blankDrawString (New 80 30 white)
         "a1B2" (mkGlobals [3; 1; 4; 1; 5; 9; 2; 6] ["a.ttf"] 72%float)
         = Ret (withError (New 80 30 white) e, g')
       /\ fontFile ∈ fontFamily (mkGlobals [3; 1; 4; 1; 5; 9; 2; 6] ["a.ttf"] 72%float)
       /\ snd (loadFont unit tt noFile noFont fontFile) = Some e
       /\ nrgba (withError (New 80 30 white) e) = nrgba (New 80 30 white).
Proof.
  assert (Hbad : forall fontFile,
            fontFile ∈ fontFamily (mkGlobals [3; 1; 4; 1; 5; 9; 2; 6] ["a.ttf"] 72%float) ->
            snd (loadFont unit tt noFile noFont fontFile) <> None)
    by (intros fontFile _; discriminate).
  split; [reflexivity|]. split; [discriminate|]. split; [discriminate|].
  split; [discriminate|]. split; [exact Hbad|].
  apply (DrawText_stores_font_error unit tt noFile noFont (asciiRunes 0) blankDrawString
           (New 80 30 white) "a1B2"
           (mkGlobals [3; 1; 4; 1; 5; 9; 2; 6] ["a.ttf"] 72%float));
    first [reflexivity | exact Hbad | discriminate].
Defined.

(** X8 on an 80 by 30 canvas with a font that loads and a rasteriser that
    succeeds. *)
Lemma DrawTextNoise_returns_witness :
  Error (New 80 30 white) = None
  /\ 0 < width (New 80 30 white)
  /\ 0 < height (New 80 30 white)
  /\ fontFamily (mkGlobals [3; 1; 4; 1; 5; 9; 2; 6] ["a.ttf"] 72%float) <> []
  /\ exists (captcha' : CaptchaImage) (g' : Globals),
       DrawTextNoise unit tt anyFile anyFont blankDrawString (New 80 30 white)
         CaptchaComplexMedium (mkGlobals [3; 1; 4; 1; 5; 9; 2; 6] ["a.ttf"] 72%float)
         = Ret (captcha', g')
       /\ width captcha' = width (New 80 30 white)
       /\ height captcha' = height (New 80 30 white)
       /\ fontFamily g' = fontFamily (mkGlobals [3; 1; 4; 1; 5; 9; 2; 6] ["a.ttf"] 72%float)
       /\ ((forall fontFile,
              fontFile ∈ fontFamily (mkGlobals [3; 1; 4; 1; 5; 9; 2; 6] ["a.ttf"] 72%float) ->
              snd (loadFont unit tt anyFile anyFont fontFile) = None) ->
           (forall (c : Context unit) m text pt,
              snd (blankDrawString c m text pt) = None) ->
           Error captcha' = None).
Proof.
  split; [reflexivity|]. split; [reflexivity|]. split; [reflexivity|].
  split; [discriminate|].
  apply (DrawTextNoise_returns unit tt anyFile anyFont blankDrawString (New 80 30 white)
           CaptchaComplexMedium (mkGlobals [3; 1; 4; 1; 5; 9; 2; 6] ["a.ttf"] 72%float));
    try reflexivity.
  discriminate.
Defined.

(** X9 on a 20 by 10 canvas at the highest complexity. *)
Lemma DrawNoise_returns_witness :
  Error (New 20 10 white) = None
  /\ 0 < width (New 20 10 white)
  /\ 0 < height (New 20 10 white)
  /\ exists (m : NRGBA) (g' : Globals),
       DrawNoise (New 20 10 white) CaptchaComplexHigh
         (mkGlobals [3; 1; 4; 1; 5; 9; 2; 6] [] 72%float)
         = Ret (withPixels (New 20 10 white) m, g')
       /\ Error (withPixels (New 20 10 white) m) = None
       /\ Bounds m = Bounds (nrgba (New 20 10 white))
       /\ forall x y, NRGBA_At m x y = NRGBA_At (nrgba (New 20 10 white)) x y
                      \/ A (NRGBA_At m x y) = 255.
Proof.
  split; [reflexivity|]. split; [reflexivity|]. split; [reflexivity|].
  apply (DrawNoise_returns (New 20 10 white) CaptchaComplexHigh
           (mkGlobals [3; 1; 4; 1; 5; 9; 2; 6] [] 72%float)); reflexivity.
Defined.

(** X10 on a canvas 16 pixels wide. *)
Lemma DrawHollowLine_narrow_canvas_panics_witness :
  Error (New 16 8 white) = None
  /\ GoInt.min_int <= width (New 16 8 white) < 20
  /\ DrawHollowLine flatSin 64 (New 16 8 white) (mkGlobals [3; 1; 4] [] 72%float)
     = Panic "invalid argument to Intn".
Proof.
  assert (Hw : GoInt.min_int <= width (New 16 8 white) < 20)
    by (split; reflexivity || discriminate).
  split; [reflexivity|]. split; [exact Hw|].
  exact (DrawHollowLine_narrow_canvas_panics flatSin 64 (New 16 8 white)
           (mkGlobals [3; 1; 4] [] 72%float) eq_refl Hw).
Defined.

(** X11 on a canvas one pixel high. *)
Lemma DrawSineLine_flat_canvas_panics_witness :
  Error (New 24 1 white) = None
  /\ GoInt.min_int <= height (New 24 1 white) < 2
  /\ DrawSineLine specRandom flatSin (New 24 1 white) (mkGlobals [3; 1; 4] [] 72%float)
     = Panic "invalid argument to Intn".
Proof.
  assert (Hh : GoInt.min_int <= height (New 24 1 white) < 2)
    by (split; reflexivity || discriminate).
  split; [reflexivity|]. split; [exact Hh|].
  exact (DrawSineLine_flat_canvas_panics specRandom flatSin (New 24 1 white)
           (mkGlobals [3; 1; 4] [] 72%float) eq_refl Hh).
Defined.

(** X12 on an 8 by 8 canvas, too narrow, and on a 40 by 2 canvas, too
    flat. *)
Lemma DrawLine_small_canvas_panics_witness :
  (Error (New 8 8 white) = None /\ 0 < 1
   /\ GoInt.min_int <= width (New 8 8 white) <= GoInt.max_int
   /\ GoInt.min_int <= height (New 8 8 white) <= GoInt.max_int
   /\ (width (New 8 8 white) < 10 \/ height (New 8 8 white) < 3))
  /\ DrawLine 64 (New 8 8 white) 1 (mkGlobals [3; 1; 4] [] 72%float)
     = Panic "invalid argument to Intn"
  /\ DrawLine 64 (New 40 2 white) 1 (mkGlobals [3; 1; 4] [] 72%float)
     = Panic "invalid argument to Intn".
Proof.
  assert (R : forall z, 0 <= z <= 100 -> GoInt.min_int <= z <= GoInt.max_int).
  { intros z Hz. unfold GoInt.min_int, GoInt.max_int. lia. }
  split; [|split].
  - split; [reflexivity|]. split; [lia|]. split; [apply R; cbn; lia|].
    split; [apply R; cbn; lia|]. left. cbn. lia.
  - apply (DrawLine_small_canvas_panics 64 (New 8 8 white) 1
             (mkGlobals [3; 1; 4] [] 72%float)); try (apply R; cbn; lia);
      [reflexivity | lia | left; cbn; lia].
  - apply (DrawLine_small_canvas_panics 64 (New 40 2 white) 1
             (mkGlobals [3; 1; 4] [] 72%float)); try (apply R; cbn; lia);
      [reflexivity | lia | right; cbn; lia].
Defined.

(** X13 for a line across an 80 by 30 canvas. *)
Lemma drawBeeline_joins_endpoints_witness :
  Error (New 80 30 white) = None
  /\ (- 2 ^ 51 <= X (mkPoint 3 20) <= 2 ^ 51 /\ - 2 ^ 51 <= Y (mkPoint 3 20) <= 2 ^ 51
      /\ - 2 ^ 51 <= X (mkPoint 70 2) <= 2 ^ 51 /\ - 2 ^ 51 <= Y (mkPoint 70 2) <= 2 ^ 51)
  /\ exists m : NRGBA,
       (forall fuel : nat,
          (Z.to_nat (Z.abs (X (mkPoint 3 20) - X (mkPoint 70 2))
                     + Z.abs (Y (mkPoint 3 20) - Y (mkPoint 70 2))) < fuel)%nat ->
          drawBeeline fuel (New 80 30 white) (mkPoint 3 20) (mkPoint 70 2) black
          = Ret (withPixels (New 80 30 white) m))
       /\ (inBounds (Bounds (nrgba (New 80 30 white))) (X (mkPoint 3 20)) (Y (mkPoint 3 20))
           = true ->
           NRGBA_At m (X (mkPoint 3 20)) (Y (mkPoint 3 20)) = nrgbaModel black)
       /\ (inBounds (Bounds (nrgba (New 80 30 white))) (X (mkPoint 70 2)) (Y (mkPoint 70 2))
           = true ->
           NRGBA_At m (X (mkPoint 70 2)) (Y (mkPoint 70 2)) = nrgbaModel black)
       /\ (forall x y, NRGBA_At m x y = NRGBA_At (nrgba (New 80 30 white)) x y
                       \/ NRGBA_At m x y = nrgbaModel black)
       /\ (forall x y, ~ inStrokeBox (mkPoint 3 20) (mkPoint 70 2) x y ->
                       NRGBA_At m x y = NRGBA_At (nrgba (New 80 30 white)) x y).
Proof.
  split; [reflexivity|]. split; [cbn [X Y]; lia|].
  apply (drawBeeline_joins_endpoints (New 80 30 white) (mkPoint 3 20) (mkPoint 70 2) black);
    [reflexivity | cbn [X Y]; lia ..].
Defined.

(** X14 for three lines on an 80 by 30 canvas. *)
Lemma DrawLine_returns_witness :
  Error (New 80 30 white) = None
  /\ 10 <= width (New 80 30 white) <= 2 ^ 51
  /\ 3 <= height (New 80 30 white) <= 2 ^ 51
  /\ (Z.to_nat (width (New 80 30 white) + height (New 80 30 white)) <= 110)%nat
  /\ exists (captcha' : CaptchaImage) (g' : Globals),
       DrawLine 110 (New 80 30 white) 3 (mkGlobals [3; 1; 4; 1; 5; 9; 2; 6] [] 72%float)
         = Ret (captcha', g')
       /\ Error captcha' = None
       /\ width captcha' = width (New 80 30 white)
       /\ height captcha' = height (New 80 30 white)
       /\ Bounds (nrgba captcha') = Bounds (nrgba (New 80 30 white))
       /\ forall x y,
            NRGBA_At (nrgba captcha') x y = NRGBA_At (nrgba (New 80 30 white)) x y
            \/ A (NRGBA_At (nrgba captcha') x y) = 255.
Proof.
  assert (Hw : 10 <= width (New 80 30 white) <= 2 ^ 51) by (cbn [width New]; lia).
  assert (Hh : 3 <= height (New 80 30 white) <= 2 ^ 51) by (cbn [height New]; lia).
  assert (Hf : (Z.to_nat (width (New 80 30 white) + height (New 80 30 white)) <= 110)%nat)
    by (cbn [width height New]; lia).
  split; [reflexivity|]. split; [exact Hw|]. split; [exact Hh|]. split; [exact Hf|].
  exact (DrawLine_returns 110 (New 80 30 white) 3
           (mkGlobals [3; 1; 4; 1; 5; 9; 2; 6] [] 72%float) eq_refl Hw Hh Hf).
Defined.

(** X15 on a 40 by 20 canvas. *)
Lemma DrawHollowLine_returns_witness :
  Error (New 40 20 white) = None
  /\ 20 <= width (New 40 20 white) <= 65536
  /\ (Z.to_nat (width (New 40 20 white)) <= 40)%nat
  /\ exists (m : NRGBA) (g' : Globals),
       DrawHollowLine flatSin 40 (New 40 20 white) (mkGlobals [3; 1; 4] [] 72%float)
         = Ret (withPixels (New 40 20 white) m, g')
       /\ Bounds m = Bounds (nrgba (New 40 20 white))
       /\ forall x y, NRGBA_At m x y = NRGBA_At (nrgba (New 40 20 white)) x y
                      \/ NRGBA_At m x y = mkRGBA 245 250 251 255.
Proof.
  assert (Hw : 20 <= width (New 40 20 white) <= 65536) by (cbn [width New]; lia).
  assert (Hf : (Z.to_nat (width (New 40 20 white)) <= 40)%nat) by (cbn [width New]; lia).
  split; [reflexivity|]. split; [exact Hw|]. split; [exact Hf|].
  exact (DrawHollowLine_returns flatSin 40 (New 40 20 white)
           (mkGlobals [3; 1; 4] [] 72%float) eq_refl Hw Hf).
Defined.

(** X17 on a directory of five entries: the two files whose names end in
    [.ttf], in either case, are registered after the font already there;
    the directory of that name and the file called [ttf] are not. *)
Example ReadFonts_listing :
  ReadFonts listing asciiToUpper "/" "fonts" ".ttf" (mkGlobals [3; 1; 4] ["a.ttf"] 72%float)
  = Ret (None, mkGlobals [3; 1; 4] ["a.ttf"; "fonts/Comic.TTF"; "fonts/arial.ttf"] 72%float)
  /\ ReadFonts listing asciiToUpper "/" "fonts" ".TTF" (mkGlobals [3; 1; 4] ["a.ttf"] 72%float)
     = Ret (None, mkGlobals [3; 1; 4] ["a.ttf"; "fonts/Comic.TTF"; "fonts/arial.ttf"] 72%float)
  /\ ReadFonts listing asciiToUpper "/" "nowhere" ".ttf" (mkGlobals [3; 1; 4] ["a.ttf"] 72%float)
     = Ret (Some "open nowhere: no such file or directory",
            mkGlobals [3; 1; 4] ["a.ttf"] 72%float).
Proof. by_evaluation. Qed.

(** X18 on a directory without a font file. *)
Lemma ReadFonts_without_fonts_then_DrawText_panics_witness :
  fontFamily (mkGlobals [3; 1; 4; 1; 5] [] 72%float) = []
  /\ listing "docs" = ([mkFileInfo "readme.txt" false; mkFileInfo "backup.ttf" true], None)
  /\ (forall fi, fi ∈ [mkFileInfo "readme.txt" false; mkFileInfo "backup.ttf" true] ->
                 isFontFile asciiToUpper ".ttf" fi = false)
  /\ Error (New 80 30 white) = None
  /\ "a1B2" <> ""
  /\ asciiRunes 0 "a1B2" <> []
  /\ exists g' : Globals,
       ReadFonts listing asciiToUpper "/" "docs" ".ttf" (mkGlobals [3; 1; 4; 1; 5] [] 72%float)
         = Ret (None, g')
       /\ fontFamily g' = []
       /\ DrawText unit tt noFile noFont (asciiRunes 0) blankDrawString (New 80 30 white)
            "a1B2" g'
          = Panic "invalid argument to Intn".
Proof.
  assert (Hnone : forall fi,
            fi ∈ [mkFileInfo "readme.txt" false; mkFileInfo "backup.ttf" true] ->
            isFontFile asciiToUpper ".ttf" fi = false).
  { intros fi Hin. rewrite !elem_of_cons, elem_of_nil in Hin.
    destruct Hin as [-> | [-> | []]]; reflexivity. }
  split; [reflexivity|]. split; [reflexivity|]. split; [exact Hnone|].
  split; [reflexivity|]. split; [discriminate|]. split; [discriminate|].
  apply (ReadFonts_without_fonts_then_DrawText_panics unit tt noFile noFont (asciiRunes 0)
           blankDrawString listing asciiToUpper "/" "docs" ".ttf"
           [mkFileInfo "readme.txt" false; mkFileInfo "backup.ttf" true]
           (New 80 30 white) "a1B2" (mkGlobals [3; 1; 4; 1; 5] [] 72%float));
    try discriminate; try reflexivity. exact Hnone.
Defined.

(** X19 on an 80 by 30 canvas with a font that loads and a rasteriser that
    succeeds. *)
Lemma DrawText_returns_witness :
  Error (New 80 30 white) = None
  /\ "a1B2" <> ""
  /\ 2 <= height (New 80 30 white) <= 4096
  /\ fontFamily (mkGlobals [3; 1; 4; 1; 5; 9; 2; 6] ["a.ttf"] 72%float) <> []
  /\ exists (captcha' : CaptchaImage) (g' : Globals),
       DrawText unit tt anyFile anyFont (asciiRunes 0) blankDrawString (New 80 30 white)
         "a1B2" (mkGlobals [3; 1; 4; 1; 5; 9; 2; 6] ["a.ttf"] 72%float)
         = Ret (captcha', g')
       /\ width captcha' = width (New 80 30 white)
       /\ height captcha' = height (New 80 30 white)
       /\ fontFamily g' = fontFamily (mkGlobals [3; 1; 4; 1; 5; 9; 2; 6] ["a.ttf"] 72%float)
       /\ ((forall fontFile,
              fontFile ∈ fontFamily (mkGlobals [3; 1; 4; 1; 5; 9; 2; 6] ["a.ttf"] 72%float) ->
              snd (loadFont unit tt anyFile anyFont fontFile) = None) ->
           (forall (c : Context unit) m text pt,
              snd (blankDrawString c m text pt) = None) ->
           Error captcha' = None).
Proof.
  assert (Hh : 2 <= height (New 80 30 white) <= 4096) by (cbn [height New]; lia).
  split; [reflexivity|]. split; [discriminate|]. split; [exact Hh|].
  split; [discriminate|].
  apply (DrawText_returns unit tt anyFile anyFont (asciiRunes 0) blankDrawString
           (New 80 30 white) "a1B2"
           (mkGlobals [3; 1; 4; 1; 5; 9; 2; 6] ["a.ttf"] 72%float));
    first [reflexivity | exact Hh | discriminate].
Defined.

(** Below the height of X19: on a canvas one pixel high the glyph size
    [1 / (1 + 1/9)] has the integer part 0, and the division of the glyph
    cell by it panics, although the font was loaded. *)
Example DrawText_one_pixel_high :
  DrawText unit tt anyFile anyFont (asciiRunes 0) blankDrawString (New 80 1 white) "a"
    (mkGlobals [1; 3; 3; 3; 3; 0] ["a.ttf"] 72%float)
  = Panic "runtime error: integer divide by zero".
Proof. vm_compute. reflexivity. Qed.
